(** * The Ruby adapter of multilspy: bootstrap, initialize parameters, session

    A shallow embedding of [multilspy/language_servers/ruby_lsp/ruby_lsp.py]
    (class [RubyLSP]) and the properties of its three operations:
    [setup_runtime_dependencies], [_get_initialize_params] and the scoped
    session [start_server]. *)

From Stdlib Require Import ZArith List String Ascii Bool.
Import ListNotations.
Open Scope string_scope.

(** ** Python values as the adapter sees them *)

Module Py.

(** The exceptions the operations can raise. *)
Inductive Exn : Type :=
| KeyError
| TypeError
| IndexError
| AssertionError
| ValueError
| CalledProcessError
| AttributeError
| PermissionError
| FileExistsError
| ServerError
| CallerError.

(** A call either returns or raises. *)
Inductive Result (A : Type) : Type :=
| Ok (a : A)
| Raise (e : Exn).
Arguments Ok {A} a.
Arguments Raise {A} e.

Definition bind {A B} (r : Result A) (k : A -> Result B) : Result B :=
  match r with
  | Ok a => k a
  | Raise e => Raise e
  end.

(** [assert c]: raises [AssertionError] when [c] is false. *)
Definition assert (c : bool) : Result unit :=
  if c then Ok tt else Raise AssertionError.

Definition raises {A} (r : Result A) : Prop := exists e, r = Raise e.

(** What [json.load] returns: a tree of dicts, lists and scalars.  A dict
    keeps its keys in insertion order. *)
#[warnings="-register-all"]
Inductive json : Type :=
| JNull
| JBool (b : bool)
| JNum (n : Z)
| JStr (s : string)
| JArr (items : list json)
| JObj (members : list (string * json)).

Definition dict := list (string * json).

Fixpoint dict_get (k : string) (d : dict) : option json :=
  match d with
  | [] => None
  | (k', v) :: rest => if String.eqb k' k then Some v else dict_get k rest
  end.

(** [d[k] = v] on a dict: in place when the key is there, else appended. *)
Fixpoint dict_set (k : string) (v : json) (d : dict) : dict :=
  match d with
  | [] => [(k, v)]
  | (k', v') :: rest =>
      if String.eqb k' k then (k, v) :: rest else (k', v') :: dict_set k v rest
  end.

Definition dict_del (k : string) (d : dict) : dict :=
  filter (fun kv => negb (String.eqb (fst kv) k)) d.

(** [v[k]] with a string key. *)
Definition getitem (v : json) (k : string) : Result json :=
  match v with
  | JObj d => match dict_get k d with
              | Some x => Ok x
              | None => Raise KeyError
              end
  | _ => Raise TypeError
  end.

(** [v[i]] with a non-negative integer index. *)
Definition getitem_int (v : json) (i : nat) : Result json :=
  match v with
  | JArr l => match nth_error l i with
              | Some x => Ok x
              | None => Raise IndexError
              end
  | JStr s => match String.get i s with
              | Some c => Ok (JStr (String c EmptyString))
              | None => Raise IndexError
              end
  | JObj _ => Raise KeyError
  | _ => Raise TypeError
  end.

(** [v[k] = x] with a string key. *)
Definition setitem (v : json) (k : string) (x : json) : Result json :=
  match v with
  | JObj d => Ok (JObj (dict_set k x d))
  | _ => Raise TypeError
  end.

(** [del v[k]] with a string key. *)
Definition delitem (v : json) (k : string) : Result json :=
  match v with
  | JObj d => match dict_get k d with
              | Some _ => Ok (JObj (dict_del k d))
              | None => Raise KeyError
              end
  | _ => Raise TypeError
  end.

(** [d.get(k, default)] on a dict. *)
Definition dict_get_default (d : dict) (k : string) (default : json) : json :=
  match dict_get k d with
  | Some x => x
  | None => default
  end.

(** [v == s] for a string [s]: only an equal string compares equal. *)
Definition eq_str (v : json) (s : string) : bool :=
  match v with
  | JStr t => String.eqb t s
  | _ => false
  end.

(** [needle in hay] on strings: substring test. *)
Fixpoint str_in (needle hay : string) : bool :=
  if String.prefix needle hay then true
  else match hay with
       | EmptyString => false
       | String _ rest => str_in needle rest
       end.

(** Writing element [i] of a list that is part of a tree. *)
Fixpoint list_set (i : nat) (x : json) (l : list json) : list json :=
  match l, i with
  | [], _ => []
  | _ :: rest, O => x :: rest
  | y :: rest, S j => y :: list_set j x rest
  end.

(** [d[k1][i][k2] = x]: the two subscripts are read, the store goes to the
    dict they reach; that dict is part of [d], so [d] sees the store. *)
Definition setitem_path (d : json) (k1 : string) (i : nat) (k2 : string)
    (x : json) : Result json :=
  bind (getitem d k1) (fun o1 =>
  bind (getitem_int o1 i) (fun o2 =>
  bind (setitem o2 k2 x) (fun o2' =>
  match o1 with
  | JArr l => setitem d k1 (JArr (list_set i o2' l))
  | _ => Raise TypeError
  end))).

End Py.
Import Py.

Declare Scope py_scope.
Delimit Scope py_scope with py.
Notation "x <- c ;; k" := (bind c (fun x => k))
  (at level 61, c at next level, right associativity) : py_scope.
Notation "c ;;; k" := (bind c (fun _ => k))
  (at level 61, right associativity) : py_scope.
Open Scope py_scope.

(** ** The host: what the adapter reads from the operating system *)

(** [os.getpid()], [pathlib.Path(p).is_absolute()], the URI that
    [pathlib.Path(p).as_uri()] builds for an absolute path, and
    [os.path.basename]. *)
Record OS : Type := {
  os_getpid : Z;
  path_is_absolute : string -> bool;
  path_make_uri : string -> string;
  os_path_basename : string -> string
}.

(** [pathlib.Path(p).as_uri()]: a relative path has no file URI. *)
Definition as_uri (os : OS) (p : string) : Result string :=
  if path_is_absolute os p then Ok (path_make_uri os p) else Raise ValueError.

(** A POSIX host, for running the definitions: [posixpath.basename] is what
    follows the last slash. *)
Fixpoint has_slash (p : string) : bool :=
  match p with
  | EmptyString => false
  | String c rest => if Ascii.eqb c "/" then true else has_slash rest
  end.

Fixpoint posix_basename (p : string) : string :=
  match p with
  | EmptyString => EmptyString
  | String c rest =>
      if has_slash rest then posix_basename rest
      else if Ascii.eqb c "/" then rest else p
  end.

(** A POSIX machine, for paths whose characters [as_uri] leaves as they are
    (it quotes the others). *)
Definition posix (pid : Z) : OS := {|
  os_getpid := pid;
  path_is_absolute := fun p => String.prefix "/" p;
  path_make_uri := fun p => "file://" ++ p;
  os_path_basename := posix_basename
|}.

(** ** Initialize Parameter Builder *)

Module Params.

(** [RubyLSP._get_initialize_params]; [template] is what [json.load] read
    from [initialize_params.json]. *)
Definition _get_initialize_params (os : OS) (template : json)
    (repository_absolute_path : string) : Result json :=
  d <- delitem template "_description" ;;
  d <- setitem d "processId" (JNum (os_getpid os)) ;;
  v <- getitem d "rootPath" ;;
  assert (eq_str v "$rootPath") ;;;
  d <- setitem d "rootPath" (JStr repository_absolute_path) ;;
  v <- getitem d "rootUri" ;;
  assert (eq_str v "$rootUri") ;;;
  uri <- as_uri os repository_absolute_path ;;
  d <- setitem d "rootUri" (JStr uri) ;;
  v <- (wf <- getitem d "workspaceFolders" ;;
        wf0 <- getitem_int wf 0 ;;
        getitem wf0 "uri") ;;
  assert (eq_str v "$uri") ;;;
  uri <- as_uri os repository_absolute_path ;;
  d <- setitem_path d "workspaceFolders" 0 "uri" (JStr uri) ;;
  v <- (wf <- getitem d "workspaceFolders" ;;
        wf0 <- getitem_int wf 0 ;;
        getitem wf0 "name") ;;
  assert (eq_str v "$name") ;;;
  d <- setitem_path d "workspaceFolders" 0 "name"
         (JStr (os_path_basename os repository_absolute_path)) ;;
  Ok d.

(** Reading a template: a top-level field, and the first workspace folder. *)
Definition field (t : json) (k : string) : option json :=
  match t with
  | JObj d => dict_get k d
  | _ => None
  end.

Definition first_folder (t : json) : option json :=
  match field t "workspaceFolders" with
  | Some (JArr (f :: _)) => Some f
  | _ => None
  end.

Definition other_folders (t : json) : list json :=
  match field t "workspaceFolders" with
  | Some (JArr (_ :: rest)) => rest
  | _ => []
  end.

Definition folder_field (t : json) (k : string) : option json :=
  match first_folder t with
  | Some f => field f k
  | None => None
  end.

Definition holds (o : option json) (s : string) : bool :=
  match o with
  | Some v => eq_str v s
  | None => false
  end.

(** Every sentinel is at its place. *)
Definition sentinels_present (t : json) : bool :=
  holds (field t "rootPath") "$rootPath"
  && holds (field t "rootUri") "$rootUri"
  && holds (folder_field t "uri") "$uri"
  && holds (folder_field t "name") "$name".

Definition has_key (t : json) (k : string) : bool :=
  match field t k with
  | Some _ => true
  | None => false
  end.

End Params.


(** ** Runtime Dependency Bootstrapper *)

Module Bootstrap.

(** Modelled from the spec: the enumeration [PlatformId] of
    [multilspy_utils], which is not among the sources.  The seven members the
    adapter's allow-list names, and [PlatformOther] for any member outside
    it ("unsupported platforms fail immediately"). *)
Inductive PlatformId : Type :=
| LINUX_x64
| LINUX_arm64
| OSX
| OSX_x64
| OSX_arm64
| WIN_x64
| WIN_arm64
| PlatformOther.

Definition PlatformId_eq_dec (a b : PlatformId) : {a = b} + {a <> b}.
Proof. decide equality. Defined.

(** [p in l] on a list of platform identifiers. *)
Definition platform_in (p : PlatformId) (l : list PlatformId) : bool :=
  if in_dec PlatformId_eq_dec p l then true else false.

Definition valid_platforms : list PlatformId :=
  [LINUX_x64; LINUX_arm64; OSX; OSX_x64; OSX_arm64; WIN_x64; WIN_arm64].

(** The file system, as far as the adapter looks: the paths that exist. *)
Definition FS := list string.

Definition os_path_exists (p : string) (fs : FS) : bool :=
  existsb (String.eqb p) fs.

(** The proper ancestors of a path, shortest first. *)
Fixpoint ancestors (seen p : string) : list string :=
  match p with
  | EmptyString => []
  | String c rest =>
      if Ascii.eqb c "/"
      then (if String.eqb seen "" then [] else [seen])
             ++ ancestors (seen ++ "/") rest
      else ancestors (seen ++ String c EmptyString) rest
  end.

(** What a successful [os.makedirs(p, exist_ok=True)] leaves: the directory
    and its missing ancestors come to exist. *)
Definition os_makedirs (p : string) (fs : FS) : FS :=
  p :: ancestors "" p ++ fs.

(** One call of [subprocess.run]. *)
Record Spawn : Type := {
  spawn_args : json;
  spawn_user : string;
  spawn_cwd : string
}.

(** What the function finds on the machine: the platform, the search path
    ([shutil.which]), the password database entry of the invoking user
    ([pwd.getpwuid(os.getuid()).pw_name]), what a shell command run with
    [check=True] does: its effect on the file system, and whether it
    raises, and when [os.makedirs] cannot create a directory (a parent that
    is read-only, a dangling link in its place): the error it raises and the
    file system it leaves. *)
Record Host : Type := {
  get_platform_id : PlatformId;
  which : string -> option string;
  pw_name : Result string;
  subprocess_run : Spawn -> FS -> FS * Result unit;
  makedirs_fails : string -> FS -> option (Exn * FS)
}.

(** The machine state the function acts on: the file system and the
    processes spawned so far, oldest first. *)
Record World : Type := {
  fs : FS;
  spawned : list Spawn
}.

(** Code that acts on the world and may raise. *)
Definition IO (A : Type) : Type := World -> World * Result A.

Definition io_ret {A} (a : A) : IO A := fun w => (w, Ok a).

Definition io_bind {A B} (m : IO A) (k : A -> IO B) : IO B :=
  fun w => match m w with
           | (w', Ok a) => k a w'
           | (w', Raise e) => (w', Raise e)
           end.

Definition io_lift {A} (r : Result A) : IO A := fun w => (w, r).

Definition is_not_None {A} (o : option A) : bool :=
  match o with
  | Some _ => true
  | None => false
  end.

(** [d.get(k, default)]; only a dict has the method. *)
Definition get_method (v : json) (k : string) (default : json) : Result json :=
  match v with
  | JObj d => Ok (dict_get_default d k default)
  | _ => Raise AttributeError
  end.

Fixpoint chars (s : string) : list json :=
  match s with
  | EmptyString => []
  | String c rest => JStr (String c EmptyString) :: chars rest
  end.

(** What [for x in v] iterates over: the items of a list, the keys of a
    dict, the characters of a string; a scalar is not iterable. *)
Definition iterate (v : json) : Result (list json) :=
  match v with
  | JArr l => Ok l
  | JObj d => Ok (map (fun kv => JStr (fst kv)) d)
  | JStr s => Ok (chars s)
  | _ => Raise TypeError
  end.

(** [subprocess.run(args, shell=True, check=True, user=user, cwd=cwd, ...)]. *)
Definition run (h : Host) (args : json) (user cwd : string) : IO unit :=
  fun w =>
    let call := {| spawn_args := args; spawn_user := user; spawn_cwd := cwd |} in
    let (fs', r) := subprocess_run h call (fs w) in
    ({| fs := fs'; spawned := spawned w ++ [call] |}, r).

(** [os.makedirs(p, exist_ok=True)]: raises where the machine refuses the
    creation, and otherwise leaves the directory and its ancestors. *)
Definition makedirs (h : Host) (p : string) : IO unit :=
  fun w =>
    match makedirs_fails h p (fs w) with
    | Some (e, fs') => ({| fs := fs'; spawned := spawned w |}, Raise e)
    | None => ({| fs := os_makedirs p (fs w); spawned := spawned w |}, Ok tt)
    end.

End Bootstrap.
Import Bootstrap.

Declare Scope io_scope.
Delimit Scope io_scope with io.
Notation "x <- c ;; k" := (io_bind c (fun x => k))
  (at level 61, c at next level, right associativity) : io_scope.
Notation "c ;;; k" := (io_bind c (fun _ => k))
  (at level 61, right associativity) : io_scope.

(** The loop [for dependency in runtime_dependencies: ...]. *)
Fixpoint install (h : Host) (ruby_ls_dir : string) (deps : list json)
    : IO unit :=
  match deps with
  | [] => io_ret tt
  | dependency :: rest =>
      (user <- io_lift (pw_name h) ;;
       command <- io_lift (getitem dependency "command") ;;
       run h command user ruby_ls_dir ;;;
       install h ruby_ls_dir rest)%io
  end.

Definition ruby_lsp_command : string := "bundle exec ruby-lsp".

(** [RubyLSP.setup_runtime_dependencies]; [manifest] is what [json.load]
    read from [runtime_dependencies.json], [ruby_ls_dir] is
    [self.ruby_ls_dir]. *)
Definition setup_runtime_dependencies {Logger Config : Type} (h : Host)
    (manifest : json) (ruby_ls_dir : string)
    (logger : Logger) (config : Config) : IO string :=
  (let platform_id := get_platform_id h in
   io_lift (assert (platform_in platform_id valid_platforms)) ;;;
   d <- io_lift (delitem manifest "_description") ;;
   runtime_dependencies <- io_lift (get_method d "runtimeDependencies" (JArr [])) ;;
   let is_node_installed := is_not_None (which h "bundle") in
   io_lift (assert is_node_installed) ;;;
   let is_npm_installed := is_not_None (which h "gem") in
   io_lift (assert is_npm_installed) ;;;
   (fun w =>
      if negb (os_path_exists ruby_ls_dir (fs w))
      then (makedirs h ruby_ls_dir ;;;
            deps <- io_lift (iterate runtime_dependencies) ;;
            install h ruby_ls_dir deps) w
      else (w, Ok tt)) ;;;
   io_ret ruby_lsp_command)%io.

(** ** The scoped session *)

Module Session.

(** The three handlers [start_server] defines. *)
Inductive Handler : Type :=
| window_log_message
| execute_client_command_handler
| do_nothing.

(** What the server sends on its own: a notification, whose parameters carry
    a [message] text as the protocol types [window/logMessage], or a
    request. *)
Inductive Inbound : Type :=
| Notification (method : string) (message : string)
| Request (method : string).

(** What a session does, in the order it does it. *)
Inductive Event : Type :=
| Registered (method : string) (h : Handler)
| Logged (text : string)
| ProcessStarted
| RequestSent (method : string)
| ResponseReceived (method : string)
| NotificationSent (method : string)
| Handled (method : string) (message : string)
| Replied (method : string)
| ReadySet
| CompletionsAvailableSet
| Yielded
| ProcessStopped.

(** How a piece of the session ends: it returns, it raises, or it stays
    suspended for ever. *)
Inductive Outcome (A : Type) : Type :=
| Returned (a : A)
| Raised (e : Exn)
| Blocked.
Arguments Returned {A} a.
Arguments Raised {A} e.
Arguments Blocked {A}.

(** The other side of a session: what the connection, the server and the
    caller's block do at each point where the session waits for them. *)
Record Script : Type := {
  start_result : Result unit;
  before_initialize_response : list Inbound;
  initialize_result : Result unit;
  while_waiting : list Inbound;
  while_in_block : list Inbound;
  block_result : Result unit;
  shutdown_result : Result unit;
  stop_result : Result unit
}.

Section Scoped.

(** The state the parent class keeps for itself. *)
Context {B : Type}.

(** The scope of the parent class, [super().start_server()], whose code is
    not among the sources: what it does to the parent's own state on entry
    and on exit, the exit being told whether an exception is leaving the
    block. *)
Record ParentScope : Type := {
  parent_enter : B -> B;
  parent_exit : bool -> B -> B
}.

(** The fields of a [RubyLSP] object the session reads and writes. *)
Record Adapter : Type := {
  parent : B;
  launch_cmd : string;
  launch_cwd : string;
  notification_handlers : list (string * Handler);
  request_handlers : list (string * Handler);
  server_ready : bool;
  completions_available : bool;
  process_running : bool
}.

Definition with_parent (f : B -> B) (a : Adapter) : Adapter :=
  {| parent := f (parent a);
     launch_cmd := launch_cmd a;
     launch_cwd := launch_cwd a;
     notification_handlers := notification_handlers a;
     request_handlers := request_handlers a;
     server_ready := server_ready a;
     completions_available := completions_available a;
     process_running := process_running a |}.

Definition with_notification_handlers (hs : list (string * Handler))
    (a : Adapter) : Adapter :=
  {| parent := parent a;
     launch_cmd := launch_cmd a;
     launch_cwd := launch_cwd a;
     notification_handlers := hs;
     request_handlers := request_handlers a;
     server_ready := server_ready a;
     completions_available := completions_available a;
     process_running := process_running a |}.

Definition with_request_handlers (hs : list (string * Handler))
    (a : Adapter) : Adapter :=
  {| parent := parent a;
     launch_cmd := launch_cmd a;
     launch_cwd := launch_cwd a;
     notification_handlers := notification_handlers a;
     request_handlers := hs;
     server_ready := server_ready a;
     completions_available := completions_available a;
     process_running := process_running a |}.

Definition with_server_ready (b : bool) (a : Adapter) : Adapter :=
  {| parent := parent a;
     launch_cmd := launch_cmd a;
     launch_cwd := launch_cwd a;
     notification_handlers := notification_handlers a;
     request_handlers := request_handlers a;
     server_ready := b;
     completions_available := completions_available a;
     process_running := process_running a |}.

Definition with_completions_available (b : bool) (a : Adapter) : Adapter :=
  {| parent := parent a;
     launch_cmd := launch_cmd a;
     launch_cwd := launch_cwd a;
     notification_handlers := notification_handlers a;
     request_handlers := request_handlers a;
     server_ready := server_ready a;
     completions_available := b;
     process_running := process_running a |}.

Definition with_process_running (b : bool) (a : Adapter) : Adapter :=
  {| parent := parent a;
     launch_cmd := launch_cmd a;
     launch_cwd := launch_cwd a;
     notification_handlers := notification_handlers a;
     request_handlers := request_handlers a;
     server_ready := server_ready a;
     completions_available := completions_available a;
     process_running := b |}.

(** A run of a piece of the session: the events it added, the object it
    left, and how it ended. *)
Record Run (A : Type) : Type := {
  log : list Event;
  state : Adapter;
  outcome : Outcome A
}.
Arguments log {A} r.
Arguments state {A} r.
Arguments outcome {A} r.

Definition Act (A : Type) : Type := Adapter -> Run A.

Definition act_ret {A} (x : A) : Act A :=
  fun a => {| log := []; state := a; outcome := Returned x |}.

Definition act_bind {A C} (m : Act A) (k : A -> Act C) : Act C :=
  fun a =>
    let r := m a in
    match outcome r with
    | Returned x =>
        let r' := k x (state r) in
        {| log := log r ++ log r'; state := state r'; outcome := outcome r' |}
    | Raised e => {| log := log r; state := state r; outcome := Raised e |}
    | Blocked => {| log := log r; state := state r; outcome := Blocked |}
    end.

Definition act_lift {A} (r : Result A) : Act A :=
  fun a => {| log := []; state := a;
              outcome := match r with
                         | Ok x => Returned x
                         | Raise e => Raised e
                         end |}.

Definition emit (e : Event) : Act unit :=
  fun a => {| log := [e]; state := a; outcome := Returned tt |}.

Definition modify (f : Adapter -> Adapter) : Act unit :=
  fun a => {| log := []; state := f a; outcome := Returned tt |}.

End Scoped.
Arguments ParentScope B : clear implicits.
Arguments Adapter B : clear implicits.
Arguments Run B A : clear implicits.
Arguments Act B A : clear implicits.
Arguments log {B A} r.
Arguments state {B A} r.
Arguments outcome {B A} r.

End Session.
Import Session.

Declare Scope act_scope.
Delimit Scope act_scope with act.
Notation "x <- c ;; k" := (act_bind c (fun x => k))
  (at level 61, c at next level, right associativity) : act_scope.
Notation "c ;;; k" := (act_bind c (fun _ => k))
  (at level 61, right associativity) : act_scope.

(** A handler registry of the connection: method name to handler, a later
    registration for a method replacing the earlier one. *)
Fixpoint registry_get (method : string) (hs : list (string * Handler))
    : option Handler :=
  match hs with
  | [] => None
  | (m, h) :: rest => if String.eqb m method then Some h else registry_get method rest
  end.

Fixpoint registry_set (method : string) (h : Handler)
    (hs : list (string * Handler)) : list (string * Handler) :=
  match hs with
  | [] => [(method, h)]
  | (m, h') :: rest =>
      if String.eqb m method then (method, h) :: rest
      else (m, h') :: registry_set method h rest
  end.

Section Lifecycle.

Context {B : Type}.
Variable super : ParentScope B.
Variable os : OS.
Variable template : json.
Variable repository_root_path : string.

(** [self.logger.log(text, logging.INFO)]. *)
Definition logger_log (text : string) : Act B unit := emit (Logged text).

(** The body of a handler, run on one inbound message.  An inbound message
    is kept as its method and the text of [msg["message"]]; the line that
    [window_log_message] logs is written with that text, where the code
    formats the whole of [msg]. *)
Definition handle (h : Handler) (method message : string) : Act B unit :=
  match h with
  | window_log_message =>
      (emit (Handled method message) ;;;
       logger_log ("LSP: window/logMessage: " ++ message) ;;;
       if str_in "Finished" message
       then (emit ReadySet ;;; modify (with_server_ready true))
       else act_ret tt)%act
  | execute_client_command_handler =>
      (emit (Handled method message) ;;; emit (Replied method))%act
  | do_nothing => emit (Handled method message)
  end.

(** Modelled from the spec: the connection's dispatch, whose code is not
    among the sources: a registered handler is "invoked for a given method
    name on every inbound message, exactly once per message"; a message
    without a handler is dropped. *)
Definition dispatch (m : Inbound) : Act B unit :=
  fun a =>
    match m with
    | Notification method message =>
        match registry_get method (notification_handlers a) with
        | Some h => handle h method message a
        | None => act_ret tt a
        end
    | Request method =>
        match registry_get method (request_handlers a) with
        | Some h => handle h method "" a
        | None => act_ret tt a
        end
    end.

(** Messages "are dispatched to handlers in the order received". *)
Fixpoint deliver (ms : list Inbound) : Act B unit :=
  match ms with
  | [] => act_ret tt
  | m :: rest => (dispatch m ;;; deliver rest)%act
  end.

(** Modelled from the spec: [self.server.on_notification] and
    [self.server.on_request] of the connection ([onNotification(method,
    handler)], [onRequest(method, handler)]). *)
Definition on_notification (method : string) (h : Handler) : Act B unit :=
  (emit (Registered method h) ;;;
   modify (fun a => with_notification_handlers
                      (registry_set method h (notification_handlers a)) a))%act.

Definition on_request (method : string) (h : Handler) : Act B unit :=
  (emit (Registered method h) ;;;
   modify (fun a => with_request_handlers
                      (registry_set method h (request_handlers a)) a))%act.

(** Modelled from the spec: [self.server.start()], the process lifecycle hook
    that launches the child process. *)
Definition server_start (sc : Script) : Act B unit :=
  (act_lift (start_result sc) ;;;
   emit ProcessStarted ;;;
   modify (with_process_running true))%act.

(** Modelled from the spec: [self.server.send.initialize(params)], a request
    of the connection ([sendRequest(method, params) -> response]): the
    request is sent, the session is suspended while inbound messages are
    dispatched, and it resumes with the matching response or with an
    error. *)
Definition send_initialize (sc : Script) (params : json) : Act B unit :=
  (emit (RequestSent "initialize") ;;;
   deliver (before_initialize_response sc) ;;;
   act_lift (initialize_result sc) ;;;
   emit (ResponseReceived "initialize"))%act.

(** Modelled from the spec: [self.server.notify.initialized({})], a
    notification of the connection (fire-and-forget). *)
Definition notify_initialized : Act B unit :=
  emit (NotificationSent "initialized").

(** [await self.server_ready.wait()]: returns at once when the event is set;
    otherwise the session is suspended and inbound messages are dispatched
    until a handler sets it.  Returns the messages not yet dispatched; with
    none left and the event unset the wait never ends. *)
Fixpoint server_ready_wait (ms : list Inbound) : Act B (list Inbound) :=
  fun a =>
    if server_ready a then act_ret ms a
    else match ms with
         | [] => {| log := []; state := a; outcome := Blocked |}
         | m :: rest => (dispatch m ;;; server_ready_wait rest)%act a
         end.

(** Modelled from the spec: [self.server.shutdown()]: "a shutdown request is
    sent and acknowledged, followed by an exit notification". *)
Definition server_shutdown (sc : Script) : Act B unit :=
  (emit (RequestSent "shutdown") ;;;
   act_lift (shutdown_result sc) ;;;
   emit (ResponseReceived "shutdown") ;;;
   emit (NotificationSent "exit"))%act.

(** Modelled from the spec: [self.server.stop()], the process lifecycle hook
    that ends the child process. *)
Definition server_stop (sc : Script) : Act B unit :=
  (act_lift (stop_result sc) ;;;
   emit ProcessStopped ;;;
   modify (with_process_running false))%act.

(** [async with super().start_server(): block]: the parent's scope is
    entered, the block runs, and the parent's exit is called whether the
    block returned or raised; an exception of the block goes on after it. *)
Definition async_with_super {A} (block : Act B A) : Act B A :=
  fun a =>
    let r := block (with_parent (parent_enter super) a) in
    match outcome r with
    | Returned x =>
        {| log := log r;
           state := with_parent (parent_exit super false) (state r);
           outcome := Returned x |}
    | Raised e =>
        {| log := log r;
           state := with_parent (parent_exit super true) (state r);
           outcome := Raised e |}
    | Blocked => r
    end.

(** The caller's block, run while the generator is suspended at
    [yield self]: the messages that come in are dispatched, and the block
    returns or raises.  Under [asynccontextmanager] an exception of the block
    is raised again inside the generator at the [yield]. *)
Definition yield_self (sc : Script) (pending : list Inbound) : Act B unit :=
  (emit Yielded ;;;
   deliver (pending ++ while_in_block sc) ;;;
   act_lift (block_result sc))%act.

(** [RubyLSP.start_server], run as one session: the generator up to its
    [yield], the caller's block, and the generator after the [yield]. *)
Definition start_server (sc : Script) : Act B unit :=
  (on_notification "window/logMessage" window_log_message ;;;
   on_request "workspace/executeClientCommand" execute_client_command_handler ;;;
   on_notification "$/progress" do_nothing ;;;
   on_notification "textDocument/publishDiagnostics" do_nothing ;;;
   async_with_super
     (logger_log "Starting Ruby server process" ;;;
      server_start sc ;;;
      initialize_params <-
        act_lift (Params._get_initialize_params os template repository_root_path) ;;
      logger_log "Sending initialize request from LSP client to LSP server and awaiting response" ;;;
      send_initialize sc initialize_params ;;;
      notify_initialized ;;;
      (emit CompletionsAvailableSet ;;; modify (with_completions_available true)) ;;;
      pending <- server_ready_wait (while_waiting sc) ;;
      yield_self sc pending ;;;
      server_shutdown sc ;;;
      server_stop sc))%act.

End Lifecycle.

(** [RubyLSP.__init__]: the runtime dependencies are set up, the parent class
    is initialised with the launch command and its working directory (its own
    state starts as [b0], the connection has no handler yet and no process),
    and [self.server_ready = asyncio.Event()], an event that is not set. *)
Definition __init__ {B Logger Config : Type} (h : Host) (manifest : json)
    (ruby_ls_dir : string) (b0 : B)
    (config : Config) (logger : Logger) (repository_root_path : string)
    : IO (Adapter B) :=
  (ruby_lsp_command <- setup_runtime_dependencies h manifest ruby_ls_dir logger config ;;
   io_ret {| parent := b0;
             launch_cmd := ruby_lsp_command;
             launch_cwd := ruby_ls_dir;
             notification_handlers := [];
             request_handlers := [];
             server_ready := false;
             completions_available := false;
             process_running := false |})%io.

(** ** Properties of sessions *)

(** A property of the events so far and of the object. *)
Definition Assertion (B : Type) : Type := list Event -> Adapter B -> Prop.

(** [triple P m Q J]: run after events and on an object that satisfy [P],
    [m] adds events and leaves an object that satisfy [Q] when it returns,
    and [J] when it raises or stays suspended. *)
Definition triple {B A : Type} (P : Assertion B) (m : Act B A)
    (Q : A -> Assertion B) (J : Assertion B) : Prop :=
  forall hist a,
    P hist a ->
    match outcome (m a) with
    | Returned x => Q x (hist ++ log (m a))%list (state (m a))
    | Raised _ | Blocked => J (hist ++ log (m a))%list (state (m a))
    end.

(** The readiness event is set. *)
Definition latched {B : Type} : Assertion B :=
  fun _ a => server_ready a = true.

(** Every occurrence of [b] comes after events that satisfy [P]. *)
Definition guarded (P : list Event -> Prop) (b : Event) (events : list Event)
    : Prop :=
  forall pre post, events = (pre ++ b :: post)%list -> P pre.

(** [a] is among the events before every occurrence of [b]. *)
Definition always_after (a b : Event) (events : list Event) : Prop :=
  guarded (fun pre => In a pre) b events.

(** The initialized notification comes after the initialize response. *)
Definition handshake_ordered {B : Type} : Assertion B :=
  fun events _ =>
    always_after (ResponseReceived "initialize") (NotificationSent "initialized")
      events.

(** The handler of [window/logMessage] was handed a message that holds the
    completion marker, and the readiness event was set. *)
Definition marker_observed (events : list Event) : Prop :=
  (exists message,
     In (Handled "window/logMessage" message) events
     /\ str_in "Finished" message = true)
  /\ In ReadySet events.

(** [window_log_message] is registered for [window/logMessage] only. *)
Definition registry_sound {B : Type} (a : Adapter B) : Prop :=
  forall method,
    registry_get method (notification_handlers a) = Some window_log_message ->
    method = "window/logMessage".

(** What holds between the sessions of one object: the readiness event is
    set only once the marker was observed, and no session yielded before. *)
Definition session_invariant {B : Type} : Assertion B :=
  fun events a =>
    registry_sound a
    /\ (server_ready a = true -> marker_observed events)
    /\ guarded marker_observed Yielded events.

(** The child process runs, no shutdown request was sent and the connection
    was not stopped. *)
Definition running {B : Type} : Assertion B :=
  fun events a =>
    process_running a = true
    /\ ~ In (RequestSent "shutdown") events
    /\ ~ In ProcessStopped events.

(** No shutdown request was sent and the connection was not stopped; if the
    generator has yielded, the child process runs. *)
Definition unstopped {B : Type} : Assertion B :=
  fun events a =>
    (In Yielded events -> process_running a = true)
    /\ ~ In (RequestSent "shutdown") events
    /\ ~ In ProcessStopped events.

(** ** Reading a manifest *)

(** The entries the install loop goes through: what iterating the
    [runtimeDependencies] member gives, nothing when the member is absent. *)
Definition dependency_entries (manifest : json) : list json :=
  match manifest with
  | JObj d =>
      match iterate (dict_get_default d "runtimeDependencies" (JArr [])) with
      | Ok deps => deps
      | Raise _ => []
      end
  | _ => []
  end.

(** [calls] are the spawns of the first entries of [deps], one for each, in
    their order, each with the entry's command. *)
Fixpoint runs_prefix (calls : list Spawn) (deps : list json) : Prop :=
  match calls, deps with
  | [], _ => True
  | c :: cs, dep :: rest =>
      getitem dep "command" = Ok (spawn_args c) /\ runs_prefix cs rest
  | _ :: _, [] => False
  end.

(** The world once [os.makedirs(ruby_ls_dir, exist_ok=True)] returned. *)
Definition created (ruby_ls_dir : string) (w : World) : World :=
  {| fs := os_makedirs ruby_ls_dir (fs w); spawned := spawned w |}.

(** [os.makedirs] can create the installation directory in this world. *)
Definition creatable (h : Host) (ruby_ls_dir : string) (w : World) : Prop :=
  makedirs_fails h ruby_ls_dir (fs w) = None.

(** The install commands leave the installation directory in place. *)
Definition keeps_directory (h : Host) (ruby_ls_dir : string) : Prop :=
  forall call f,
    os_path_exists ruby_ls_dir f = true ->
    os_path_exists ruby_ls_dir (fst (subprocess_run h call f)) = true.


(** ** Concrete inputs *)

Definition sample_template : json :=
  JObj [("_description", JStr "The parameters sent by the client");
        ("processId", JNull);
        ("rootPath", JStr "$rootPath");
        ("rootUri", JStr "$rootUri");
        ("capabilities", JObj []);
        ("workspaceFolders",
          JArr [JObj [("uri", JStr "$uri"); ("name", JStr "$name")]])].

(** The same template without its documentation key. *)
Definition undocumented_template : json :=
  JObj [("processId", JNull);
        ("rootPath", JStr "$rootPath");
        ("rootUri", JStr "$rootUri");
        ("capabilities", JObj []);
        ("workspaceFolders",
          JArr [JObj [("uri", JStr "$uri"); ("name", JStr "$name")]])].

(** A template whose root URI was already substituted. *)
Definition reused_template : json :=
  JObj [("_description", JStr "The parameters sent by the client");
        ("processId", JNull);
        ("rootPath", JStr "$rootPath");
        ("rootUri", JStr "file:///srv/old");
        ("workspaceFolders",
          JArr [JObj [("uri", JStr "$uri"); ("name", JStr "$name")]])].

Definition sample_manifest : json :=
  JObj [("_description", JStr "Used to install the runtime dependencies");
        ("runtimeDependencies",
          JArr [JObj [("command", JStr "gem install ruby-lsp");
                      ("description", JStr "the language server")];
                JObj [("command", JStr "bundle install");
                      ("description", JStr "its bundle")]])].

(** A manifest with neither of its two keys. *)
Definition empty_manifest : json := JObj [].

(** A manifest with its documentation key only. *)
Definition bare_manifest : json :=
  JObj [("_description", JStr "Used to install the runtime dependencies")].

(** A Linux machine with bundle and gem, on which every command succeeds and
    leaves the file system as it is. *)
Definition dev_host : Host := {|
  get_platform_id := LINUX_x64;
  which := fun tool => Some ("/usr/bin/" ++ tool);
  pw_name := Ok "dev";
  subprocess_run := fun _ f => (f, Ok tt);
  makedirs_fails := fun _ _ => None
|}.

(** The same machine without bundle. *)
Definition host_without_bundle : Host := {|
  get_platform_id := LINUX_x64;
  which := fun tool => if String.eqb tool "bundle" then None
                       else Some ("/usr/bin/" ++ tool);
  pw_name := Ok "dev";
  subprocess_run := fun _ f => (f, Ok tt);
  makedirs_fails := fun _ _ => None
|}.

(** The same machine with the package installed read-only: no directory
    can be created. *)
Definition read_only_host : Host := {|
  get_platform_id := LINUX_x64;
  which := fun tool => Some ("/usr/bin/" ++ tool);
  pw_name := Ok "dev";
  subprocess_run := fun _ f => (f, Ok tt);
  makedirs_fails := fun _ f => Some (PermissionError, f)
|}.

Definition install_dir : string := "/opt/multilspy/static/ruby-lsp".

Definition fresh_world : World := {| fs := ["/opt"]; spawned := [] |}.

Definition installed_world : World :=
  {| fs := [install_dir; "/opt"]; spawned := [] |}.

(** A parent scope that keeps a started flag, cleared on a clean exit. *)
Definition flag_scope : ParentScope bool := {|
  parent_enter := fun _ => true;
  parent_exit := fun raising started => if raising then started else false
|}.

(** An object as [__init__] leaves it. *)
Definition new_adapter : Adapter bool := {|
  parent := false;
  launch_cmd := ruby_lsp_command;
  launch_cwd := install_dir;
  notification_handlers := [];
  request_handlers := [];
  server_ready := false;
  completions_available := false;
  process_running := false
|}.

(** A server that indexes and says so, and a block that returns. *)
Definition good_script : Script := {|
  start_result := Ok tt;
  before_initialize_response := [Notification "window/logMessage" "Starting"];
  initialize_result := Ok tt;
  while_waiting := [Notification "$/progress" "";
                    Notification "window/logMessage" "Finished indexing"];
  while_in_block := [Request "workspace/executeClientCommand";
                     Notification "window/logMessage" "Idle"];
  block_result := Ok tt;
  shutdown_result := Ok tt;
  stop_result := Ok tt
|}.

(** The same server, and a block that raises. *)
Definition failing_block_script : Script := {|
  start_result := Ok tt;
  before_initialize_response := [Notification "window/logMessage" "Starting"];
  initialize_result := Ok tt;
  while_waiting := [Notification "$/progress" "";
                    Notification "window/logMessage" "Finished indexing"];
  while_in_block := [Request "workspace/executeClientCommand"];
  block_result := Raise CallerError;
  shutdown_result := Ok tt;
  stop_result := Ok tt
|}.

(** ** Further readings of a template *)

(** The keys of a dict, in their order. *)
Definition keys (t : json) : list string :=
  match t with
  | JObj d => map fst d
  | _ => []
  end.

Definition is_dict (t : json) : bool :=
  match t with
  | JObj _ => true
  | _ => false
  end.

(** A template whose workspace folders are an empty list. *)
Definition folderless_template : json :=
  JObj [("_description", JStr "The parameters sent by the client");
        ("processId", JNull);
        ("rootPath", JStr "$rootPath");
        ("rootUri", JStr "$rootUri");
        ("workspaceFolders", JArr [])].

(** ** Further readings of the bootstrap *)

(** The call [subprocess.run] is given for one command. *)
Definition spawn_for (user ruby_ls_dir : string) (command : json) : Spawn :=
  {| spawn_args := command; spawn_user := user; spawn_cwd := ruby_ls_dir |}.

(** The gates before the directory test: the platform, the documentation
    key, bundle and gem. *)
Definition gates_pass (h : Host) (manifest : json) : bool :=
  platform_in (get_platform_id h) valid_platforms
  && Params.has_key manifest "_description"
  && is_not_None (which h "bundle")
  && is_not_None (which h "gem").

(** A machine of a platform outside the allow-list. *)
Definition unsupported_host : Host := {|
  get_platform_id := PlatformOther;
  which := fun tool => Some ("/usr/bin/" ++ tool);
  pw_name := Ok "dev";
  subprocess_run := fun _ f => (f, Ok tt);
  makedirs_fails := fun _ _ => None
|}.



(** ** Further properties of sessions *)

(** [outcomes P m Q R K]: as [triple], telling the two ways not to return
    apart: [R e] holds when [m] raises [e], [K] when it stays suspended. *)
Definition outcomes {B A : Type} (P : Assertion B) (m : Act B A)
    (Q : A -> Assertion B) (R : Exn -> Assertion B) (K : Assertion B) : Prop :=
  forall hist a,
    P hist a ->
    match outcome (m a) with
    | Returned x => Q x (hist ++ log (m a))%list (state (m a))
    | Raised e => R e (hist ++ log (m a))%list (state (m a))
    | Blocked => K (hist ++ log (m a))%list (state (m a))
    end.

(** Dispatching [m] keeps [I]. *)
Definition dispatch_keeps {B : Type} (I : Assertion B) (m : Inbound) : Prop :=
  forall hist a,
    I hist a ->
    I (hist ++ log (dispatch m a))%list (state (dispatch m a)).

(** [a] comes before every [b], whatever the object. *)
Definition ordered {B : Type} (a b : Event) : Assertion B :=
  fun events _ => always_after a b events.

(** The four registrations of [start_server]. *)
Definition registrations : list Event :=
  [Registered "window/logMessage" window_log_message;
   Registered "workspace/executeClientCommand" execute_client_command_handler;
   Registered "$/progress" do_nothing;
   Registered "textDocument/publishDiagnostics" do_nothing].

(** The process flag follows the events: set once the process was started,
    with no stop so far. *)
Definition tracked {B : Type} : Assertion B :=
  fun events a =>
    (In ProcessStarted events -> process_running a = true)
    /\ ~ In ProcessStopped events.



(** A message that is not a [window/logMessage] notification with the
    marker in its text. *)
Definition quiet (m : Inbound) : Prop :=
  match m with
  | Notification method message =>
      method = "window/logMessage" -> str_in "Finished" message = false
  | Request _ => True
  end.

(** The readiness event is not set and the generator has not yielded. *)
Definition unready {B : Type} : Assertion B :=
  fun events a =>
    registry_sound a /\ server_ready a = false /\ ~ In Yielded events.

(** A server that answers the handshake and never reports the end of its
    indexing. *)
Definition silent_script : Script := {|
  start_result := Ok tt;
  before_initialize_response := [Notification "window/logMessage" "Starting"];
  initialize_result := Ok tt;
  while_waiting := [Notification "$/progress" "Finished";
                    Notification "window/logMessage" "Indexing"];
  while_in_block := [];
  block_result := Ok tt;
  shutdown_result := Ok tt;
  stop_result := Ok tt
|}.

(** A server whose answer to the initialize request is an error. *)
Definition refusing_script : Script := {|
  start_result := Ok tt;
  before_initialize_response := [];
  initialize_result := Raise ServerError;
  while_waiting := [Notification "window/logMessage" "Finished indexing"];
  while_in_block := [];
  block_result := Ok tt;
  shutdown_result := Ok tt;
  stop_result := Ok tt
|}.

(** An event that a handler adds. *)
Definition from_handler (e : Event) : Prop :=
  match e with
  | Handled _ _ | Logged _ | ReadySet | Replied _ => True
  | _ => False
  end.

(** The generator has not yielded. *)
Definition not_yielded {B : Type} : Assertion B :=
  fun events _ => ~ In Yielded events.

(** The generator has yielded. *)
Definition yielded {B : Type} : Assertion B :=
  fun events _ => In Yielded events.

(** Neither the initialized notification nor the yield has happened. *)
Definition handshake_pending {B : Type} : Assertion B :=
  fun events _ =>
    ~ In (NotificationSent "initialized") events /\ ~ In Yielded events.

(** The child process runs and was not shut down, before the yield. *)
Definition running_before_yield {B : Type} : Assertion B :=
  fun events a => ~ In Yielded events /\ running events a.

Definition anything {B : Type} : Assertion B := fun _ _ => True.

Definition nothing {B : Type} : Assertion B := fun _ _ => False.

(** The initialize request is pending or failed: no initialized notification,
    no yield, and the child process runs. *)
Definition awaiting_response {B : Type} : Assertion B :=
  fun events a =>
    ~ In (NotificationSent "initialized") events
    /\ ~ In Yielded events
    /\ process_running a = true.

(** A [window/logMessage] notification with the marker in its text. *)
Definition reports (m : Inbound) : Prop :=
  match m with
  | Notification method message =>
      method = "window/logMessage" /\ str_in "Finished" message = true
  | Request _ => False
  end.

(** [window_log_message] is the handler of [window/logMessage]. *)
Definition listening {B : Type} (a : Adapter B) : Prop :=
  registry_get "window/logMessage" (notification_handlers a)
  = Some window_log_message.

(** A server that reports before it answers the initialize request. *)
Definition early_script : Script := {|
  start_result := Ok tt;
  before_initialize_response :=
    [Notification "window/logMessage" "Finished indexing"];
  initialize_result := Ok tt;
  while_waiting := [];
  while_in_block := [];
  block_result := Ok tt;
  shutdown_result := Ok tt;
  stop_result := Ok tt
|}.

(** The object that a first session, with a server that reported the end of
    its indexing, left behind. *)
Definition used_adapter : Adapter bool :=
  state (start_server flag_scope (posix 4242) sample_template "/home/dev/todo"
           good_script new_adapter).

(** ** Values and dicts *)

Lemma dict_get_set (k k' : string) (v : json) (d : dict) :
  dict_get k' (dict_set k v d) = if String.eqb k k' then Some v else dict_get k' d.
Proof.
  induction d as [|[k0 v0] rest IH]; simpl.
  - reflexivity.
  - destruct (String.eqb_spec k0 k) as [->|Hne]; simpl.
    + destruct (String.eqb k k'); reflexivity.
    + destruct (String.eqb_spec k0 k') as [->|Hne'].
      * destruct (String.eqb_spec k k') as [->|_]; [congruence | reflexivity].
      * exact IH.
Qed.

Lemma dict_get_del (k k' : string) (d : dict) :
  dict_get k' (dict_del k d) = if String.eqb k k' then None else dict_get k' d.
Proof.
  induction d as [|[k0 v0] rest IH]; simpl.
  - destruct (String.eqb k k'); reflexivity.
  - destruct (String.eqb_spec k0 k) as [->|Hne]; simpl.
    + rewrite IH. destruct (String.eqb k k'); reflexivity.
    + rewrite IH. destruct (String.eqb_spec k0 k') as [->|Hne'].
      * destruct (String.eqb_spec k k') as [->|_]; [congruence | reflexivity].
      * reflexivity.
Qed.

Lemma eq_str_true (v : json) (s : string) : eq_str v s = true -> v = JStr s.
Proof.
  destruct v; simpl; try discriminate.
  intros H. apply String.eqb_eq in H. now subst.
Qed.

Lemma holds_true (o : option json) (s : string) :
  Params.holds o s = true -> o = Some (JStr s).
Proof.
  destruct o as [v|]; simpl; [|discriminate].
  intros H. now rewrite (eq_str_true _ _ H).
Qed.

Ltac dict_simpl := repeat (rewrite ?dict_get_set, ?dict_get_del; simpl).

(** ** Initialize Parameter Builder: what a run needs and what it returns *)

Section ParamsFacts.

Variable os : OS.

(** A run that returns went through every check. *)
Lemma get_initialize_params_inv (t : json) (p : string) (r : json) :
  Params._get_initialize_params os t p = Ok r ->
  Params.has_key t "_description" = true
  /\ Params.sentinels_present t = true
  /\ path_is_absolute os p = true.
Proof.
  unfold Params._get_initialize_params, Params.has_key, Params.sentinels_present,
    Params.folder_field, Params.first_folder, Params.field.
  destruct t as [| | | | |d]; simpl; try discriminate.
  destruct (dict_get "_description" d) eqn:Hd; simpl; [|discriminate].
  dict_simpl.
  destruct (dict_get "rootPath" d) as [v1|] eqn:H1; simpl; [|discriminate].
  destruct (eq_str v1 "$rootPath") eqn:E1; simpl; [|discriminate].
  dict_simpl.
  destruct (dict_get "rootUri" d) as [v2|] eqn:H2; simpl; [|discriminate].
  destruct (eq_str v2 "$rootUri") eqn:E2; simpl; [|discriminate].
  unfold as_uri. destruct (path_is_absolute os p) eqn:Habs; simpl; [|discriminate].
  dict_simpl.
  destruct (dict_get "workspaceFolders" d) as [wf|] eqn:H3; simpl; [|discriminate].
  destruct wf as [| | |s|l|m]; simpl; try discriminate.
  - destruct s; simpl; discriminate.
  - destruct l as [|f rest]; simpl; [discriminate|].
    destruct f as [| | | | |fd]; simpl; try discriminate.
    destruct (dict_get "uri" fd) as [v3|] eqn:H4; simpl; [|discriminate].
    destruct (eq_str v3 "$uri") eqn:E3; simpl; [|discriminate].
    unfold setitem_path; simpl. dict_simpl. rewrite H3; simpl. dict_simpl.
    destruct (dict_get "name" fd) as [v4|] eqn:H5; simpl; [|discriminate].
    destruct (eq_str v4 "$name") eqn:E4; simpl; [|discriminate].
    auto.
Qed.

(** The shape of a template that holds its four sentinels. *)
Lemma sentinels_present_shape (t : json) :
  Params.sentinels_present t = true ->
  exists d fd rest,
    t = JObj d
    /\ dict_get "rootPath" d = Some (JStr "$rootPath")
    /\ dict_get "rootUri" d = Some (JStr "$rootUri")
    /\ dict_get "workspaceFolders" d = Some (JArr (JObj fd :: rest))
    /\ dict_get "uri" fd = Some (JStr "$uri")
    /\ dict_get "name" fd = Some (JStr "$name").
Proof.
  unfold Params.sentinels_present. rewrite !andb_true_iff.
  intros [[[H1 H2] H3] H4].
  apply holds_true in H1, H2, H3, H4.
  unfold Params.folder_field, Params.first_folder, Params.field in *.
  destruct t as [| | | | |d]; try discriminate.
  simpl in H1, H2, H3, H4.
  destruct (dict_get "workspaceFolders" d) as [[| | | |[|f rest]|]|] eqn:Hwf;
    try discriminate.
  destruct f as [| | | | |fd]; try discriminate.
  exists d, fd, rest. repeat split; auto.
Qed.

(** The value a run returns on a template that is in order. *)
Lemma get_initialize_params_run (d fd : dict) (rest : list json) (p : string) :
  dict_get "_description" d <> None ->
  dict_get "rootPath" d = Some (JStr "$rootPath") ->
  dict_get "rootUri" d = Some (JStr "$rootUri") ->
  dict_get "workspaceFolders" d = Some (JArr (JObj fd :: rest)) ->
  dict_get "uri" fd = Some (JStr "$uri") ->
  dict_get "name" fd = Some (JStr "$name") ->
  path_is_absolute os p = true ->
  Params._get_initialize_params os (JObj d) p =
  Ok (JObj
        (dict_set "workspaceFolders"
           (JArr (JObj (dict_set "name" (JStr (os_path_basename os p))
                          (dict_set "uri" (JStr (path_make_uri os p)) fd))
                  :: rest))
           (dict_set "workspaceFolders"
              (JArr (JObj (dict_set "uri" (JStr (path_make_uri os p)) fd) :: rest))
              (dict_set "rootUri" (JStr (path_make_uri os p))
                 (dict_set "rootPath" (JStr p)
                    (dict_set "processId" (JNum (os_getpid os))
                       (dict_del "_description" d))))))).
Proof.
  intros Hd H1 H2 H3 H4 H5 Habs.
  unfold Params._get_initialize_params; simpl.
  destruct (dict_get "_description" d); [|congruence]. simpl.
  dict_simpl. rewrite H1; simpl. dict_simpl. rewrite H2; simpl.
  unfold as_uri. rewrite Habs; simpl. dict_simpl. rewrite H3; simpl.
  rewrite H4; simpl. unfold setitem_path; simpl. dict_simpl. rewrite H3; simpl.
  dict_simpl. rewrite H5; simpl. reflexivity.
Qed.

End ParamsFacts.

(** C2.  For every template in which a sentinel field (rootPath, rootUri,
    the uri or the name of the first workspace folder) is missing or is not
    its sentinel string, [_get_initialize_params] raises, whatever the host
    and the repository path: it returns no parameter tree, substituted in
    part or otherwise. *)
Theorem get_initialize_params_rejects_bad_sentinel
    (os : OS) (t : json) (p : string) :
  Params.sentinels_present t = false ->
  raises (Params._get_initialize_params os t p)
  /\ forall r, Params._get_initialize_params os t p <> Ok r.
Proof.
  intros Hbad.
  assert (Hno : forall r, Params._get_initialize_params os t p <> Ok r).
  { intros r Hr. apply get_initialize_params_inv in Hr.
    destruct Hr as (_ & Hs & _). congruence. }
  split; [|exact Hno].
  destruct (Params._get_initialize_params os t p) as [r|e] eqn:E.
  - exfalso. exact (Hno r eq_refl).
  - exists e. reflexivity.
Qed.

Lemma get_initialize_params_rejects_bad_sentinel_witness :
  Params.sentinels_present reused_template = false
  /\ raises (Params._get_initialize_params (posix 4242) reused_template "/home/dev/todo").
Proof.
  split; [reflexivity|].
  apply (get_initialize_params_rejects_bad_sentinel (posix 4242) reused_template
           "/home/dev/todo").
  reflexivity.
Defined.

(** With every sentinel at its place the template may still lack its
    documentation key, and then the builder raises [KeyError]. *)
Lemma get_initialize_params_undocumented_template :
  Params.sentinels_present undocumented_template = true
  /\ path_is_absolute (posix 4242) "/home/dev/todo" = true
  /\ Params._get_initialize_params (posix 4242) undocumented_template
       "/home/dev/todo" = Raise KeyError.
Proof. repeat split. Qed.

(** C3, amended.  For every absolute repository path and every template that
    carries the [_description] key and every sentinel, [_get_initialize_params]
    returns the template without [_description], its process id set to the
    current process id, its root path to the repository path, its root URI
    and the URI of the first workspace folder to the file URI of that path,
    and the name of the first workspace folder to the last component of the
    path; every other field, of the template and of that folder, and every
    other folder are as in the template. *)
Theorem get_initialize_params_substitutes
    (os : OS) (t : json) (p : string) :
  Params.has_key t "_description" = true ->
  Params.sentinels_present t = true ->
  path_is_absolute os p = true ->
  exists r,
    Params._get_initialize_params os t p = Ok r
    /\ Params.field r "processId" = Some (JNum (os_getpid os))
    /\ Params.field r "rootPath" = Some (JStr p)
    /\ Params.field r "rootUri" = Some (JStr (path_make_uri os p))
    /\ Params.folder_field r "uri" = Some (JStr (path_make_uri os p))
    /\ Params.folder_field r "name" = Some (JStr (os_path_basename os p))
    /\ Params.field r "_description" = None
    /\ (forall k,
          ~ In k ["_description"; "processId"; "rootPath"; "rootUri";
                  "workspaceFolders"] ->
          Params.field r k = Params.field t k)
    /\ (forall k, k <> "uri" -> k <> "name" ->
          Params.folder_field r k = Params.folder_field t k)
    /\ Params.other_folders r = Params.other_folders t.
Proof.
  intros Hdoc Hs Habs.
  destruct (sentinels_present_shape t Hs)
    as (d & fd & rest & -> & H1 & H2 & H3 & H4 & H5).
  assert (Hd : dict_get "_description" d <> None).
  { unfold Params.has_key in Hdoc; simpl in Hdoc.
    destruct (dict_get "_description" d); [discriminate | discriminate Hdoc]. }
  eexists. split.
  { apply (get_initialize_params_run os d fd rest p); assumption. }
  unfold Params.folder_field, Params.first_folder, Params.other_folders,
    Params.field.
  dict_simpl. rewrite H3.
  repeat split.
  - intros k Hk. simpl in Hk. rewrite !dict_get_set, dict_get_del.
    repeat match goal with
    | |- context [String.eqb ?a k] =>
        destruct (String.eqb_spec a k) as [E|?]; [exfalso; apply Hk; auto 10|]
    end.
    reflexivity.
  - intros k Hu Hn. rewrite !dict_get_set.
    destruct (String.eqb_spec "name" k) as [E|_]; [congruence|].
    destruct (String.eqb_spec "uri" k) as [E|_]; [congruence|].
    reflexivity.
Qed.

Lemma get_initialize_params_substitutes_witness :
  exists r,
    Params._get_initialize_params (posix 4242) sample_template "/home/dev/todo" = Ok r
    /\ Params.field r "rootUri" = Some (JStr "file:///home/dev/todo")
    /\ Params.folder_field r "name" = Some (JStr "todo").
Proof.
  destruct (get_initialize_params_substitutes (posix 4242) sample_template
              "/home/dev/todo" eq_refl eq_refl eq_refl)
    as (r & Hr & _ & _ & Hu & _ & Hn & _).
  exists r. repeat split; assumption.
Defined.

(** ** Runtime Dependency Bootstrapper: the paths through the function *)

Section BootstrapFacts.

Context {Logger Config : Type}.
Variable h : Host.
Variable manifest : json.
Variable ruby_ls_dir : string.
Variable logger : Logger.
Variable config : Config.

(** The function, path by path. *)
Lemma setup_runtime_dependencies_paths (w : World) :
  setup_runtime_dependencies h manifest ruby_ls_dir logger config w =
  if platform_in (get_platform_id h) valid_platforms then
    match manifest with
    | JObj d =>
        match dict_get "_description" d with
        | Some _ =>
            if is_not_None (which h "bundle") then
              if is_not_None (which h "gem") then
                if os_path_exists ruby_ls_dir (fs w) then (w, Ok ruby_lsp_command)
                else
                  match makedirs_fails h ruby_ls_dir (fs w) with
                  | Some (e, fs') => ({| fs := fs'; spawned := spawned w |}, Raise e)
                  | None =>
                      match iterate (dict_get_default d "runtimeDependencies" (JArr [])) with
                      | Ok deps =>
                          match install h ruby_ls_dir deps (created ruby_ls_dir w) with
                          | (w', Ok _) => (w', Ok ruby_lsp_command)
                          | (w', Raise e) => (w', Raise e)
                          end
                      | Raise e => (created ruby_ls_dir w, Raise e)
                      end
                  end
              else (w, Raise AssertionError)
            else (w, Raise AssertionError)
        | None => (w, Raise KeyError)
        end
    | _ => (w, Raise TypeError)
    end
  else (w, Raise AssertionError).
Proof.
  unfold setup_runtime_dependencies, io_bind, io_lift, io_ret, assert, makedirs.
  destruct (platform_in (get_platform_id h) valid_platforms); [|reflexivity].
  destruct manifest as [| | | | |d]; try reflexivity.
  simpl. destruct (dict_get "_description" d); [|reflexivity].
  simpl. destruct (is_not_None (which h "bundle")); [|reflexivity].
  destruct (is_not_None (which h "gem")); [|reflexivity].
  destruct (os_path_exists ruby_ls_dir (fs w)); simpl; [reflexivity|].
  unfold dict_get_default. rewrite dict_get_del. simpl.
  destruct (makedirs_fails h ruby_ls_dir (fs w)) as [[e fs']|]; [reflexivity|].
  fold (created ruby_ls_dir w).
  destruct (iterate _) as [deps|e]; [|reflexivity].
  destruct (install h ruby_ls_dir deps (created ruby_ls_dir w)) as [w' [[]|e]];
    reflexivity.
Qed.


(** The install loop spawns the commands of the first entries, in order, and
    stops at the first failure. *)
Lemma install_spawns (deps : list json) (w : World) :
  exists calls,
    spawned (fst (install h ruby_ls_dir deps w)) = (spawned w ++ calls)%list
    /\ runs_prefix calls deps
    /\ (keeps_directory h ruby_ls_dir ->
        os_path_exists ruby_ls_dir (fs w) = true ->
        os_path_exists ruby_ls_dir (fs (fst (install h ruby_ls_dir deps w))) = true).
Proof.
  revert w. induction deps as [|dep rest IH]; intros w; simpl.
  - exists []. rewrite app_nil_r. simpl. auto.
  - unfold io_bind, io_lift, run.
    destruct (pw_name h) as [user|e]; simpl.
    2:{ exists []. rewrite app_nil_r. simpl. auto. }
    destruct (getitem dep "command") as [c|e] eqn:Hc; simpl.
    2:{ exists []. rewrite app_nil_r. simpl. auto. }
    set (call := {| spawn_args := c; spawn_user := user; spawn_cwd := ruby_ls_dir |}).
    destruct (subprocess_run h call (fs w)) as [f' r] eqn:Hrun.
    destruct r as [[]|e].
    + destruct (IH {| fs := f'; spawned := spawned w ++ [call] |})
        as (calls & Hsp & Hpre & Hdir).
      exists (call :: calls). simpl in Hsp. rewrite Hsp, <- app_assoc.
      simpl. repeat split; auto.
      intros Hk Hex. apply Hdir; [exact Hk|]. simpl.
      specialize (Hk call (fs w) Hex). now rewrite Hrun in Hk.
    + exists [call]. simpl. repeat split; auto.
      intros Hk Hex. specialize (Hk call (fs w) Hex). now rewrite Hrun in Hk.
Qed.


End BootstrapFacts.

Section BootstrapProperties.

Context {Logger Config : Type}.
Variable manifest : json.
Variable ruby_ls_dir : string.
Variable logger : Logger.
Variable config : Config.

(** One invocation either leaves the world as it found it, or found no
    installation directory and either failed to create it, spawning nothing,
    or created it and spawned the commands of the first entries of the
    manifest, each once. *)
Lemma setup_runtime_dependencies_effect (h : Host) (w : World) :
  let w' := fst (setup_runtime_dependencies h manifest ruby_ls_dir logger config w) in
  w' = w
  \/ (os_path_exists ruby_ls_dir (fs w) = false
      /\ exists calls,
           spawned w' = (spawned w ++ calls)%list
           /\ runs_prefix calls (dependency_entries manifest)
           /\ (creatable h ruby_ls_dir w \/ calls = [])
           /\ (creatable h ruby_ls_dir w ->
               keeps_directory h ruby_ls_dir ->
               os_path_exists ruby_ls_dir (fs w') = true)).
Proof.
  simpl. rewrite setup_runtime_dependencies_paths.
  destruct (platform_in (get_platform_id h) valid_platforms); [|now left].
  destruct manifest as [| | | | |d]; try now left.
  destruct (dict_get "_description" d); [|now left].
  destruct (is_not_None (which h "bundle")); [|now left].
  destruct (is_not_None (which h "gem")); [|now left].
  destruct (os_path_exists ruby_ls_dir (fs w)) eqn:Hex; [now left|].
  right. split; [reflexivity|]. unfold dependency_entries, creatable.
  destruct (makedirs_fails h ruby_ls_dir (fs w)) as [[e fs']|].
  { exists []. simpl. rewrite app_nil_r. repeat split; auto. discriminate. }
  destruct (iterate (dict_get_default d "runtimeDependencies" (JArr [])))
    as [deps|e].
  - destruct (install_spawns h ruby_ls_dir deps (created ruby_ls_dir w))
      as (calls & Hsp & Hpre & Hdir).
    exists calls.
    destruct (install h ruby_ls_dir deps (created ruby_ls_dir w)) as [w' [[]|e]];
      simpl in *; (repeat split; [exact Hsp | exact Hpre | now left |]);
      intros _ Hk; apply Hdir; auto; now rewrite String.eqb_refl.
  - exists []. simpl. rewrite app_nil_r, String.eqb_refl. auto.
Qed.

(** C4.  Bootstrapping is idempotent.  When the installation directory
    exists, [setup_runtime_dependencies] spawns no process and leaves the
    file system as it is.  Two invocations in a row on the same directory,
    whose install commands leave the directory in place, spawn between them
    the commands of the manifest's entries at most once each, in order, and
    one of the two spawns nothing. *)
Theorem setup_runtime_dependencies_idempotent (h1 h2 : Host) :
  (forall w,
     os_path_exists ruby_ls_dir (fs w) = true ->
     fst (setup_runtime_dependencies h1 manifest ruby_ls_dir logger config w) = w)
  /\ (keeps_directory h1 ruby_ls_dir ->
      forall w0,
        let w1 := fst (setup_runtime_dependencies h1 manifest ruby_ls_dir logger config w0) in
        let w2 := fst (setup_runtime_dependencies h2 manifest ruby_ls_dir logger config w1) in
        (spawned w1 = spawned w0 \/ spawned w2 = spawned w1)
        /\ exists calls,
             spawned w2 = (spawned w0 ++ calls)%list
             /\ runs_prefix calls (dependency_entries manifest)).
Proof.
  assert (Hskip : forall h w,
            os_path_exists ruby_ls_dir (fs w) = true ->
            fst (setup_runtime_dependencies h manifest ruby_ls_dir logger config w) = w).
  { intros h w Hex.
    destruct (setup_runtime_dependencies_effect h w) as [H|[Hno _]];
      [exact H | congruence]. }
  split; [apply Hskip|].
  intros Hk w0. cbv zeta.
  pose proof (setup_runtime_dependencies_effect h1 w0) as E1. cbv zeta in E1.
  set (w1 := fst (setup_runtime_dependencies h1 manifest ruby_ls_dir logger config w0))
    in *.
  pose proof (setup_runtime_dependencies_effect h2 w1) as E2. cbv zeta in E2.
  pose proof (Hskip h2 w1) as S2.
  set (w2 := fst (setup_runtime_dependencies h2 manifest ruby_ls_dir logger config w1))
    in *.
  destruct E1 as [H1|(Hno & calls & Hsp & Hpre & [Hmk|Hnil] & Hdir)].
  - split; [left; now rewrite H1|].
    destruct E2 as [H2|(_ & calls & Hsp & Hpre & _)].
    + exists []. rewrite H2, H1, app_nil_r. simpl. auto.
    + exists calls. rewrite Hsp, H1. auto.
  - assert (H2 : w2 = w1) by (apply S2; auto).
    split; [right; now rewrite H2|].
    exists calls. rewrite H2. auto.
  - subst calls. rewrite app_nil_r in Hsp.
    split; [left; exact Hsp|].
    destruct E2 as [H2|(_ & calls & Hsp2 & Hpre2 & _)].
    + exists []. rewrite H2, Hsp, app_nil_r. simpl. auto.
    + exists calls. rewrite Hsp2, Hsp. auto.
Qed.


(** C9, amended.  If the manifest carries [_description] and no
    [runtimeDependencies] key, then on a supported platform with bundle and
    gem found, where the installation directory exists or [os.makedirs] can
    create it, [setup_runtime_dependencies] does not raise: it takes the
    list of dependencies as empty, creates the installation directory when
    it is not there yet, spawns no command and returns the launch command. *)
Theorem setup_runtime_dependencies_without_entries (h : Host) (w : World) :
  Params.has_key manifest "runtimeDependencies" = false ->
  Params.has_key manifest "_description" = true ->
  platform_in (get_platform_id h) valid_platforms = true ->
  is_not_None (which h "bundle") = true ->
  is_not_None (which h "gem") = true ->
  os_path_exists ruby_ls_dir (fs w) = true \/ creatable h ruby_ls_dir w ->
  dependency_entries manifest = []
  /\ setup_runtime_dependencies h manifest ruby_ls_dir logger config w
     = ((if os_path_exists ruby_ls_dir (fs w) then w else created ruby_ls_dir w),
        Ok ruby_lsp_command)
  /\ spawned (fst (setup_runtime_dependencies h manifest ruby_ls_dir logger config w))
     = spawned w
  /\ os_path_exists ruby_ls_dir
       (fs (fst (setup_runtime_dependencies h manifest ruby_ls_dir logger config w)))
     = true.
Proof.
  intros Hno Hd Hp Hb Hg Hdir.
  rewrite setup_runtime_dependencies_paths. rewrite Hp.
  unfold Params.has_key, Params.field in Hno, Hd. unfold dependency_entries.
  destruct manifest as [| | | | |d]; try discriminate.
  destruct (dict_get "_description" d); [|discriminate].
  rewrite Hb, Hg. unfold dict_get_default.
  destruct (dict_get "runtimeDependencies" d); [discriminate|]. simpl.
  destruct (os_path_exists ruby_ls_dir (fs w)) eqn:Hex; simpl.
  - auto.
  - destruct Hdir as [Hin|Hmk]; [discriminate|].
    unfold creatable in Hmk. rewrite Hmk. simpl.
    rewrite String.eqb_refl. auto.
Qed.

End BootstrapProperties.

(** A manifest without [runtimeDependencies] that makes the function raise:
    one that lacks [_description] too, one read on a machine without
    bundle, and one read where the package directory is read-only. *)
Lemma setup_runtime_dependencies_without_entries_may_raise :
  Params.has_key empty_manifest "runtimeDependencies" = false
  /\ setup_runtime_dependencies dev_host empty_manifest install_dir tt tt fresh_world
     = (fresh_world, Raise KeyError)
  /\ Params.has_key bare_manifest "runtimeDependencies" = false
  /\ setup_runtime_dependencies host_without_bundle bare_manifest install_dir tt tt
       fresh_world
     = (fresh_world, Raise AssertionError)
  /\ setup_runtime_dependencies read_only_host bare_manifest install_dir tt tt
       fresh_world
     = (fresh_world, Raise PermissionError).
Proof. repeat split. Qed.

Lemma setup_runtime_dependencies_idempotent_witness :
  keeps_directory dev_host install_dir
  /\ fst (setup_runtime_dependencies dev_host sample_manifest install_dir tt tt
            installed_world) = installed_world
  /\ exists calls,
       spawned
         (fst (setup_runtime_dependencies dev_host sample_manifest install_dir tt tt
                 (fst (setup_runtime_dependencies dev_host sample_manifest
                         install_dir tt tt fresh_world))))
       = (spawned fresh_world ++ calls)%list
       /\ runs_prefix calls (dependency_entries sample_manifest).
Proof.
  assert (Hk : keeps_directory dev_host install_dir)
    by (intros call f Hex; exact Hex).
  destruct (setup_runtime_dependencies_idempotent sample_manifest install_dir tt tt
              dev_host dev_host) as [Hskip Htwice].
  split; [exact Hk|]. split.
  - apply Hskip. reflexivity.
  - exact (proj2 (Htwice Hk fresh_world)).
Defined.




Lemma setup_runtime_dependencies_without_entries_witness :
  setup_runtime_dependencies dev_host bare_manifest install_dir tt tt fresh_world
  = (created install_dir fresh_world, Ok ruby_lsp_command).
Proof.
  exact (proj1 (proj2 (setup_runtime_dependencies_without_entries bare_manifest
                         install_dir tt tt dev_host fresh_world
                         eq_refl eq_refl eq_refl eq_refl eq_refl
                         (or_intror eq_refl)))).
Defined.

(** C10.  The [_description] key is mandatory in both files.  On a manifest
    without it [setup_runtime_dependencies] raises and leaves the world as it
    found it; on a template without it [_get_initialize_params] raises. *)
Theorem description_key_is_mandatory {Logger Config : Type} :
  (forall (h : Host) (manifest : json) (ruby_ls_dir : string)
          (logger : Logger) (config : Config) (w : World),
     Params.has_key manifest "_description" = false ->
     exists e,
       setup_runtime_dependencies h manifest ruby_ls_dir logger config w
       = (w, Raise e))
  /\ (forall (os : OS) (template : json) (p : string),
        Params.has_key template "_description" = false ->
        raises (Params._get_initialize_params os template p)).
Proof.
  split.
  - intros h manifest dir logger config w Hno.
    rewrite setup_runtime_dependencies_paths.
    unfold Params.has_key, Params.field in Hno.
    destruct (platform_in (get_platform_id h) valid_platforms);
      [|eexists; reflexivity].
    destruct manifest as [| | | | |d]; try (eexists; reflexivity).
    destruct (dict_get "_description" d); [discriminate|].
    eexists; reflexivity.
  - intros os t p Hno.
    destruct (Params._get_initialize_params os t p) as [r|e] eqn:E.
    + apply get_initialize_params_inv in E. destruct E as (Hd & _). congruence.
    + exists e. reflexivity.
Qed.

Lemma description_key_is_mandatory_witness :
  (exists e,
     setup_runtime_dependencies dev_host empty_manifest install_dir tt tt fresh_world
     = (fresh_world, Raise e))
  /\ raises (Params._get_initialize_params (posix 4242) undocumented_template
               "/home/dev/todo").
Proof.
  destruct (@description_key_is_mandatory unit unit) as [Hm Ht].
  split.
  - apply Hm. reflexivity.
  - apply Ht. reflexivity.
Defined.

(** ** A logic of sessions *)

Section Logic.

Context {B : Type}.

Lemma triple_ret {A} (x : A) (Q : A -> Assertion B) (J : Assertion B) :
  triple (Q x) (act_ret x) Q J.
Proof. intros hist a H. simpl. now rewrite app_nil_r. Qed.

Lemma triple_emit (e : Event) (Q : unit -> Assertion B) (J : Assertion B) :
  triple (fun hist a => Q tt (hist ++ [e])%list a) (emit e) Q J.
Proof. intros hist a H. exact H. Qed.

Lemma triple_modify (f : Adapter B -> Adapter B) (Q : unit -> Assertion B)
    (J : Assertion B) :
  triple (fun hist a => Q tt hist (f a)) (modify f) Q J.
Proof. intros hist a H. simpl. now rewrite app_nil_r. Qed.

Lemma triple_lift {A} (r : Result A) (Q : A -> Assertion B) (J : Assertion B) :
  triple (fun hist a => match r with
                        | Ok x => Q x hist a
                        | Raise _ => J hist a
                        end)
         (act_lift r) Q J.
Proof. intros hist a H. simpl. rewrite app_nil_r. destruct r; exact H. Qed.

Lemma triple_bind {A C} (P : Assertion B) (m : Act B A) (Q : A -> Assertion B)
    (k : A -> Act B C) (R : C -> Assertion B) (J : Assertion B) :
  triple P m Q J ->
  (forall x, triple (Q x) (k x) R J) ->
  triple P (act_bind m k) R J.
Proof.
  intros Hm Hk hist a HP. specialize (Hm hist a HP).
  unfold act_bind. destruct (outcome (m a)) as [x| |]; simpl; try exact Hm.
  specialize (Hk x _ _ Hm). rewrite app_assoc.
  destruct (outcome (k x (state (m a)))); exact Hk.
Qed.

Lemma triple_weaken {A} (P P' : Assertion B) (m : Act B A)
    (Q : A -> Assertion B) (J : Assertion B) :
  (forall hist a, P hist a -> P' hist a) ->
  triple P' m Q J ->
  triple P m Q J.
Proof. intros HPP Hm hist a HP. apply Hm, HPP, HP. Qed.

Lemma triple_strengthen {A} (P : Assertion B) (m : Act B A)
    (Q Q' : A -> Assertion B) (J J' : Assertion B) :
  (forall x hist a, Q' x hist a -> Q x hist a) ->
  (forall hist a, J' hist a -> J hist a) ->
  triple P m Q' J' ->
  triple P m Q J.
Proof.
  intros HQ HJ Hm hist a HP. specialize (Hm hist a HP).
  destruct (outcome (m a)); auto.
Qed.

Lemma triple_if {A} (c : bool) (P1 P2 : Assertion B) (m1 m2 : Act B A)
    (Q : A -> Assertion B) (J : Assertion B) :
  triple P1 m1 Q J ->
  triple P2 m2 Q J ->
  triple (fun hist a => if c then P1 hist a else P2 hist a)
         (if c then m1 else m2) Q J.
Proof. destruct c; auto. Qed.

(** A message goes to the handler its method is registered for: a
    notification with its text, a request with none. *)
Lemma triple_dispatch (I : Assertion B) (m : Inbound) :
  (forall h method message,
     triple (fun hist a =>
               I hist a
               /\ (registry_get method (notification_handlers a) = Some h
                   \/ message = ""))
            (handle h method message) (fun _ => I) I) ->
  triple I (dispatch m) (fun _ => I) I.
Proof.
  intros Hh hist a HI. unfold dispatch.
  destruct m as [method message|method].
  - destruct (registry_get method (notification_handlers a)) as [h|] eqn:Hr.
    + apply (Hh h method message hist a). auto.
    + simpl. now rewrite app_nil_r.
  - destruct (registry_get method (request_handlers a)) as [h|] eqn:Hr.
    + apply (Hh h method "" hist a). auto.
    + simpl. now rewrite app_nil_r.
Qed.

Lemma triple_deliver (I : Assertion B) (ms : list Inbound)
    (Q : unit -> Assertion B) (J : Assertion B) :
  (forall m, triple I (dispatch m) (fun _ => I) I) ->
  (forall hist a, I hist a -> Q tt hist a) ->
  (forall hist a, I hist a -> J hist a) ->
  triple I (deliver ms) Q J.
Proof.
  intros Hd HQ HJ.
  apply (triple_strengthen I (deliver ms) Q (fun _ => I) J I);
    [intros [] ? ?; apply HQ | exact HJ |].
  induction ms as [|m rest IH]; simpl.
  - apply (triple_ret tt (fun _ => I)).
  - eapply triple_bind; [apply Hd | intros ?; exact IH].
Qed.

(** The wait returns only with the event set. *)
Lemma triple_server_ready_wait (I : Assertion B) (ms : list Inbound)
    (Q : list Inbound -> Assertion B) (J : Assertion B) :
  (forall m, triple I (dispatch m) (fun _ => I) I) ->
  (forall pending hist a, I hist a -> server_ready a = true -> Q pending hist a) ->
  (forall hist a, I hist a -> J hist a) ->
  triple I (server_ready_wait ms) Q J.
Proof.
  intros Hd HQ HJ.
  apply (triple_strengthen I (server_ready_wait ms) Q
           (fun _ hist a => I hist a /\ server_ready a = true) J I);
    [intros pending ? ? [? ?]; now apply HQ | exact HJ |].
  induction ms as [|m rest IH]; intros hist a HI; simpl.
  - destruct (server_ready a) eqn:Hr; simpl; rewrite app_nil_r; auto.
  - destruct (server_ready a) eqn:Hr.
    + simpl. rewrite app_nil_r. auto.
    + exact (triple_bind I (dispatch m) (fun _ => I)
               (fun _ => server_ready_wait rest) _ I (Hd m) (fun _ => IH)
               hist a HI).
Qed.

(** The parent's scope around a block: its exit runs when the block returns
    and when it raises, not when the block stays suspended. *)
Lemma triple_async_with_super {A} (super : ParentScope B) (block : Act B A)
    (P : Assertion B) (Q : A -> Assertion B) (J : Assertion B) :
  triple P block
    (fun x hist a => Q x hist (with_parent (parent_exit super false) a))
    (fun hist a => J hist (with_parent (parent_exit super true) a) /\ J hist a) ->
  triple (fun hist a => P hist (with_parent (parent_enter super) a))
    (async_with_super super block) Q J.
Proof.
  intros Hb hist a HP. specialize (Hb hist _ HP). unfold async_with_super.
  destruct (outcome (block (with_parent (parent_enter super) a))) eqn:Ho;
    simpl; try rewrite Ho; tauto.
Qed.

End Logic.

Ltac wp_step :=
  first [ apply triple_emit | apply triple_modify | apply triple_lift
        | apply triple_ret ].

Ltac wp_chain I :=
  lazymatch goal with
  | |- triple _ (act_bind _ _) _ _ =>
      eapply triple_bind; [ | intros ?; wp_chain I ]; [ wp_chain I | .. ]
  | |- triple _ (if _ then _ else _) _ _ =>
      eapply triple_if; wp_chain I
  | |- triple _ (deliver _) _ _ => apply (triple_deliver I)
  | |- triple _ (server_ready_wait _) _ _ => apply (triple_server_ready_wait I)
  | |- triple _ (async_with_super _ _) _ _ =>
      apply triple_async_with_super; wp_chain I
  | |- triple _ _ _ _ => wp_step
  end.

Ltac unfold_session :=
  unfold start_server, on_notification, on_request, logger_log, server_start,
    send_initialize, notify_initialized, yield_self, server_shutdown,
    server_stop.

(** ** The readiness latch *)

Section Latch.

Context {B : Type}.

Lemma latched_dispatch (m : Inbound) :
  triple (@latched B) (dispatch m) (fun _ => latched) latched.
Proof.
  apply triple_dispatch. intros h method message.
  destruct h; unfold handle, logger_log;
    (eapply triple_weaken; [|wp_chain (@latched B)]);
    intros hist a [H _]; cbv beta; try exact H.
  destruct (str_in "Finished" message); [reflexivity | exact H].
Qed.

Lemma latched_start_server (super : ParentScope B) (os : OS) (template : json)
    (repository_root_path : string) (sc : Script) :
  triple (@latched B) (start_server super os template repository_root_path sc)
    (fun _ => latched) latched.
Proof.
  unfold_session.
  eapply triple_weaken; [|wp_chain (@latched B)];
    try apply latched_dispatch; unfold latched; cbv beta; intros;
    repeat match goal with
    | |- context [match ?r with Ok _ => _ | Raise _ => _ end] => destruct r
    end; simpl; auto.
Qed.

End Latch.

(** What a step that keeps an assertion leaves, however it ends. *)
Lemma triple_kept {B A : Type} (I : Assertion B) (m : Act B A)
    (hist : list Event) (a : Adapter B) :
  triple I m (fun _ => I) I ->
  I hist a ->
  I (hist ++ log (m a))%list (state (m a)).
Proof.
  intros Hm HI. specialize (Hm hist a HI).
  destruct (outcome (m a)); exact Hm.
Qed.

(** C7.  The readiness latch is monotone.  It starts unset: [__init__]
    leaves the event unset.  A message with the marker handed to
    [window_log_message] sets it.  Once it is set it stays set: through any
    further messages handed to the handlers, with or without the marker, and
    through a whole session, which never clears it. *)
Theorem readiness_latch_is_monotone {B Logger Config : Type} :
  (forall (h : Host) (manifest : json) (ruby_ls_dir : string) (b0 : B)
          (config : Config) (logger : Logger) (root : string) (w w' : World)
          (a : Adapter B),
     __init__ h manifest ruby_ls_dir b0 config logger root w = (w', Ok a) ->
     server_ready a = false)
  /\ (forall (a : Adapter B) (method message : string),
        str_in "Finished" message = true ->
        server_ready (state (handle window_log_message method message a)) = true)
  /\ (forall (a : Adapter B) (ms : list Inbound),
        server_ready a = true ->
        server_ready (state (deliver ms a)) = true)
  /\ (forall (super : ParentScope B) (os : OS) (template : json) (root : string)
             (sc : Script) (a : Adapter B),
        server_ready a = true ->
        server_ready (state (start_server super os template root sc a)) = true).
Proof.
  repeat split.
  - intros h manifest dir b0 config logger root w w' a.
    unfold __init__, io_bind, io_ret.
    destruct (setup_runtime_dependencies h manifest dir logger config w)
      as [w1 [cmd|e]]; intros H; inversion H; reflexivity.
  - intros a method message Hm. simpl. rewrite Hm. reflexivity.
  - intros a ms Hr.
    apply (triple_kept latched (deliver ms) [] a); [|exact Hr].
    apply triple_deliver; auto using latched_dispatch.
  - intros super os template root sc a Hr.
    apply (triple_kept latched (start_server super os template root sc) [] a);
      [apply latched_start_server | exact Hr].
Qed.

Lemma readiness_latch_is_monotone_witness :
  server_ready
    (state (handle window_log_message "window/logMessage" "Finished indexing"
              new_adapter)) = true
  /\ server_ready
       (state (deliver [Notification "window/logMessage" "Restarting";
                        Notification "window/logMessage" "Finished again"]
                 (with_server_ready true new_adapter))) = true
  /\ server_ready
       (state (start_server flag_scope (posix 4242) sample_template
                 "/home/dev/todo" good_script
                 (with_server_ready true new_adapter))) = true.
Proof.
  destruct (@readiness_latch_is_monotone bool unit unit)
    as (_ & Hset & Hkeep & Hsession).
  split; [|split].
  - apply Hset. reflexivity.
  - apply Hkeep. reflexivity.
  - apply Hsession. reflexivity.
Defined.

(** ** Order of events *)

Lemma snoc_split {A : Type} (l pre post : list A) (e b : A) :
  (l ++ [e] = pre ++ b :: post)%list ->
  (post = [] /\ pre = l /\ e = b)
  \/ (exists post', post = (post' ++ [e])%list /\ l = (pre ++ b :: post')%list).
Proof.
  destruct post as [|x post'] using rev_ind; intros H.
  - apply app_inj_tail in H. destruct H as [-> ->]. auto.
  - clear IHpost'. right.
    change (pre ++ b :: post' ++ [x])%list
      with (pre ++ (b :: post') ++ [x])%list in H.
    rewrite app_assoc in H. apply app_inj_tail in H.
    destruct H as [-> ->]. eauto.
Qed.

Lemma guarded_nil (P : list Event -> Prop) (b : Event) : guarded P b [].
Proof. intros pre post H. destruct pre; discriminate. Qed.

(** An event other than [b] may follow. *)
Lemma guarded_snoc_other (P : list Event -> Prop) (b e : Event)
    (events : list Event) :
  e <> b -> guarded P b events -> guarded P b (events ++ [e])%list.
Proof.
  intros Hne Hg pre post H.
  destruct (snoc_split _ _ _ _ _ H) as [(_ & _ & He)|(post' & _ & Hl)].
  - contradiction.
  - exact (Hg pre post' Hl).
Qed.

(** [b] may follow events that satisfy [P]. *)
Lemma guarded_snoc (P : list Event -> Prop) (b : Event) (events : list Event) :
  P events -> guarded P b events -> guarded P b (events ++ [b])%list.
Proof.
  intros HP Hg pre post H.
  destruct (snoc_split _ _ _ _ _ H) as [(_ & -> & _)|(post' & _ & Hl)].
  - exact HP.
  - exact (Hg pre post' Hl).
Qed.

Lemma marker_observed_app (events more : list Event) :
  marker_observed events -> marker_observed (events ++ more)%list.
Proof.
  intros [(message & Hin & Hm) Hr]. split.
  - exists message. split; [apply in_or_app; now left | exact Hm].
  - apply in_or_app. now left.
Qed.

(** ** The handshake *)

Section Handshake.

Context {B : Type}.

Lemma handshake_ordered_dispatch (m : Inbound) :
  triple (@handshake_ordered B) (dispatch m) (fun _ => handshake_ordered)
    handshake_ordered.
Proof.
  apply triple_dispatch. intros h method message.
  destruct h; unfold handle, logger_log;
    (eapply triple_weaken; [|wp_chain (@handshake_ordered B)]);
    intros hist a [H _]; unfold handshake_ordered, always_after in *; cbv beta;
    try destruct (str_in "Finished" message);
    repeat (apply guarded_snoc_other; [discriminate|]); exact H.
Qed.

Lemma handshake_ordered_start_server (super : ParentScope B) (os : OS)
    (template : json) (repository_root_path : string) (sc : Script) :
  triple (@handshake_ordered B)
    (start_server super os template repository_root_path sc)
    (fun _ => handshake_ordered) handshake_ordered.
Proof.
  unfold_session.
  eapply triple_weaken; [|wp_chain (@handshake_ordered B)];
    try apply handshake_ordered_dispatch;
    unfold handshake_ordered, always_after; cbv beta; intros;
    repeat match goal with
    | |- context [match ?r with Ok _ => _ | Raise _ => _ end] => destruct r
    end; try split;
    repeat (apply guarded_snoc_other; [discriminate|]); auto.
  apply guarded_snoc.
  - apply in_or_app. right. now left.
  - apply guarded_snoc_other; [discriminate | assumption].
Qed.

End Handshake.

(** C5.  In every session the initialized notification is sent only after
    the response to the initialize request was received: in the events of
    [start_server], whatever the server, the connection and the caller do,
    every initialized notification has the initialize response before it. *)
Theorem initialized_only_after_initialize_response {B : Type}
    (super : ParentScope B) (os : OS) (template : json) (root : string)
    (sc : Script) (a : Adapter B) :
  always_after (ResponseReceived "initialize") (NotificationSent "initialized")
    (log (start_server super os template root sc a)).
Proof.
  pose proof (triple_kept handshake_ordered
                (start_server super os template root sc) [] a
                (handshake_ordered_start_server super os template root sc)
                (guarded_nil _ _)) as H.
  unfold handshake_ordered in H. rewrite app_nil_l in H. exact H.
Qed.

(** With a server that answers, the notification is sent, right after the
    response. *)
Example initialized_is_sent :
  exists pre post,
    log (start_server flag_scope (posix 4242) sample_template "/home/dev/todo"
           good_script new_adapter)
    = (pre ++ ResponseReceived "initialize" :: NotificationSent "initialized"
           :: post)%list.
Proof. eexists (_ :: _ :: _ :: _ :: _ :: _ :: _ :: _ :: _ :: _ :: []), _.
  vm_compute. reflexivity.
Qed.

(** ** Readiness before the yield *)

Lemma registry_get_set (method method' : string) (h : Handler)
    (hs : list (string * Handler)) :
  registry_get method' (registry_set method h hs)
  = if String.eqb method method' then Some h else registry_get method' hs.
Proof.
  induction hs as [|[m0 h0] rest IH]; simpl.
  - reflexivity.
  - destruct (String.eqb_spec m0 method) as [->|Hne]; simpl.
    + destruct (String.eqb method method'); reflexivity.
    + destruct (String.eqb_spec m0 method') as [->|Hne'].
      * destruct (String.eqb_spec method method') as [->|_];
          [congruence | reflexivity].
      * exact IH.
Qed.

Section Readiness.

Context {B : Type}.

Lemma session_invariant_snoc (e : Event) (hist : list Event) (a : Adapter B) :
  e <> Yielded ->
  session_invariant hist a -> session_invariant (hist ++ [e])%list a.
Proof.
  intros Hne (Hreg & Hready & Hyield). split; [exact Hreg | split].
  - intros Hr. apply marker_observed_app. auto.
  - apply guarded_snoc_other; assumption.
Qed.

Lemma session_invariant_frame (hist : list Event) (a a' : Adapter B) :
  notification_handlers a' = notification_handlers a ->
  server_ready a' = server_ready a ->
  session_invariant hist a -> session_invariant hist a'.
Proof.
  intros Hn Hs (Hreg & Hready & Hyield). unfold session_invariant, registry_sound.
  rewrite Hn, Hs. auto.
Qed.

(** A registration of a handler other than [window_log_message], or of
    [window_log_message] for [window/logMessage]. *)
Lemma registry_sound_set (method : string) (h : Handler) (a a' : Adapter B) :
  (h = window_log_message -> method = "window/logMessage") ->
  notification_handlers a' = registry_set method h (notification_handlers a) ->
  registry_sound a -> registry_sound a'.
Proof.
  intros Hh Hn Hreg method'. rewrite Hn, registry_get_set.
  destruct (String.eqb_spec method method') as [<-|_].
  - intros H. apply Hh. congruence.
  - apply Hreg.
Qed.

Lemma session_invariant_dispatch (m : Inbound) :
  triple (@session_invariant B) (dispatch m) (fun _ => session_invariant)
    session_invariant.
Proof.
  apply triple_dispatch. intros h method message.
  destruct h; unfold handle, logger_log;
    (eapply triple_weaken; [|wp_chain (@session_invariant B)]);
    intros hist a [HI Hfrom]; cbv beta.
  - destruct (str_in "Finished" message) eqn:Hm.
    + assert (method = "window/logMessage") as ->.
      { destruct Hfrom as [Hget| ->]; [|discriminate Hm].
        destruct HI as (Hreg & _). exact (Hreg method Hget). }
      destruct HI as (Hreg & _ & Hyield).
      split; [exact Hreg | split; [intros _; split|]].
      * exists message. split; [|exact Hm].
        apply in_or_app. left. apply in_or_app. left. apply in_or_app.
        right. now left.
      * apply in_or_app. right. now left.
      * repeat (apply guarded_snoc_other; [discriminate|]). exact Hyield.
    + repeat (apply session_invariant_snoc; [discriminate|]). exact HI.
  - repeat (apply session_invariant_snoc; [discriminate|]). exact HI.
  - repeat (apply session_invariant_snoc; [discriminate|]). exact HI.
Qed.

Ltac keep_session_invariant :=
  cbv beta; intros;
  repeat match goal with
  | H : _ /\ _ |- _ => destruct H
  | |- context [match ?r with Ok _ => _ | Raise _ => _ end] => destruct r
  end;
  repeat (apply session_invariant_snoc; [discriminate|]);
  try (eapply session_invariant_frame; [| |eassumption]; reflexivity);
  try assumption.

Lemma session_invariant_on_notification (method : string) (h : Handler) :
  (h = window_log_message -> method = "window/logMessage") ->
  triple (@session_invariant B) (on_notification method h)
    (fun _ => session_invariant) session_invariant.
Proof.
  intros Hh. unfold on_notification.
  eapply triple_weaken; [|wp_chain (@session_invariant B)].
  cbv beta. intros hist a HI.
  apply (session_invariant_snoc (Registered method h)) in HI; [|discriminate].
  destruct HI as (Hreg & Hready & Hyield). split; [|split]; auto.
  eapply registry_sound_set; [exact Hh | reflexivity | exact Hreg].
Qed.

Lemma session_invariant_on_request (method : string) (h : Handler) :
  triple (@session_invariant B) (on_request method h)
    (fun _ => session_invariant) session_invariant.
Proof.
  unfold on_request.
  eapply triple_weaken; [|wp_chain (@session_invariant B)].
  keep_session_invariant.
Qed.

Lemma session_invariant_server_start (sc : Script) :
  triple (@session_invariant B) (server_start sc)
    (fun _ => session_invariant) session_invariant.
Proof.
  unfold server_start.
  eapply triple_weaken; [|wp_chain (@session_invariant B)].
  keep_session_invariant.
Qed.

Lemma session_invariant_send_initialize (sc : Script) (params : json) :
  triple (@session_invariant B) (send_initialize sc params)
    (fun _ => session_invariant) session_invariant.
Proof.
  unfold send_initialize.
  eapply triple_weaken; [|wp_chain (@session_invariant B)];
    try apply session_invariant_dispatch; keep_session_invariant.
Qed.

(** The generator yields with the readiness event set. *)
Lemma session_invariant_yield_self (sc : Script) (pending : list Inbound) :
  triple (fun hist a => @session_invariant B hist a /\ server_ready a = true)
    (yield_self sc pending) (fun _ => session_invariant) session_invariant.
Proof.
  unfold yield_self.
  eapply triple_weaken; [|wp_chain (@session_invariant B)];
    try apply session_invariant_dispatch; try solve [keep_session_invariant].
  cbv beta. intros hist a [(Hreg & Hready & Hyield) Hr].
  split; [exact Hreg | split].
  - intros _. apply marker_observed_app. auto.
  - apply guarded_snoc; auto.
Qed.

Lemma session_invariant_server_shutdown (sc : Script) :
  triple (@session_invariant B) (server_shutdown sc)
    (fun _ => session_invariant) session_invariant.
Proof.
  unfold server_shutdown.
  eapply triple_weaken; [|wp_chain (@session_invariant B)].
  keep_session_invariant.
Qed.

Lemma session_invariant_server_stop (sc : Script) :
  triple (@session_invariant B) (server_stop sc)
    (fun _ => session_invariant) session_invariant.
Proof.
  unfold server_stop.
  eapply triple_weaken; [|wp_chain (@session_invariant B)].
  keep_session_invariant.
Qed.

Ltac keep_with tac :=
  eapply (triple_bind (@session_invariant B) _ (fun _ => session_invariant));
  [ tac | intros ? ].

Ltac keep_simple :=
  eapply triple_weaken; [|wp_chain (@session_invariant B)];
  keep_session_invariant.

Lemma session_invariant_start_server (super : ParentScope B) (os : OS)
    (template : json) (repository_root_path : string) (sc : Script) :
  triple (@session_invariant B)
    (start_server super os template repository_root_path sc)
    (fun _ => session_invariant) session_invariant.
Proof.
  unfold start_server.
  keep_with ltac:(now apply session_invariant_on_notification).
  keep_with ltac:(apply session_invariant_on_request).
  keep_with ltac:(apply session_invariant_on_notification; discriminate).
  keep_with ltac:(apply session_invariant_on_notification; discriminate).
  eapply triple_weaken; [|apply triple_async_with_super].
  { intros hist a HI. pattern hist, a.
    eapply session_invariant_frame; [| |exact HI]; reflexivity. }
  apply (triple_strengthen _ _ _ (fun _ => session_invariant) _ session_invariant).
  { intros ? hist a HI.
    eapply session_invariant_frame; [| |exact HI]; reflexivity. }
  { intros hist a HI. split; [|exact HI].
    eapply session_invariant_frame; [| |exact HI]; reflexivity. }
  unfold logger_log, notify_initialized.
  keep_with keep_simple.
  keep_with ltac:(apply session_invariant_server_start).
  keep_with keep_simple.
  keep_with keep_simple.
  keep_with ltac:(apply session_invariant_send_initialize).
  keep_with keep_simple.
  keep_with keep_simple.
  eapply (triple_bind (@session_invariant B) _
            (fun _ hist a => session_invariant hist a /\ server_ready a = true)).
  { apply triple_server_ready_wait; auto using session_invariant_dispatch. }
  intros pending.
  eapply (triple_bind _ _ (fun _ => session_invariant));
    [apply session_invariant_yield_self | intros ?].
  keep_with ltac:(apply session_invariant_server_shutdown).
  apply session_invariant_server_stop.
Qed.

End Readiness.

(** An object as [__init__] leaves it is ready for its first session. *)
Lemma init_session_invariant {B Logger Config : Type}
    (h : Host) (manifest : json) (ruby_ls_dir : string) (b0 : B)
    (config : Config) (logger : Logger) (root : string) (w w' : World)
    (a : Adapter B) :
  __init__ h manifest ruby_ls_dir b0 config logger root w = (w', Ok a) ->
  session_invariant [] a.
Proof.
  unfold __init__, io_bind, io_ret.
  destruct (setup_runtime_dependencies h manifest ruby_ls_dir logger config w)
    as [w1 [cmd|e]]; intros H; inversion H; subst.
  split; [|split].
  - intros method Hget. discriminate Hget.
  - intros Hr. discriminate Hr.
  - apply guarded_nil.
Qed.

(** Over the life of one object, a yield comes only after the readiness event
    was set, which happens only when the handler registered for
    [window/logMessage] was handed a message that contains "Finished": before
    every yield among the events of [start_server] there is such a message
    and the setting of the event, in this session or, on an object used
    before, in an earlier one.  The session leaves the object fit for the
    next. *)
Lemma yield_only_after_readiness {B : Type}
    (super : ParentScope B) (os : OS) (template : json) (root : string)
    (sc : Script) (hist : list Event) (a : Adapter B) :
  session_invariant hist a ->
  (forall pre post,
     log (start_server super os template root sc a) = (pre ++ Yielded :: post)%list ->
     marker_observed (hist ++ pre)%list)
  /\ session_invariant
       (hist ++ log (start_server super os template root sc a))%list
       (state (start_server super os template root sc a)).
Proof.
  intros HI.
  assert (Hend : session_invariant
                   (hist ++ log (start_server super os template root sc a))%list
                   (state (start_server super os template root sc a))).
  { apply triple_kept; [apply session_invariant_start_server | exact HI]. }
  split; [|exact Hend].
  intros pre post Hlog. destruct Hend as (_ & _ & Hyield).
  apply (Hyield (hist ++ pre)%list post).
  rewrite Hlog, app_assoc. reflexivity.
Qed.

Lemma new_adapter_session_invariant : session_invariant [] new_adapter.
Proof.
  split; [|split].
  - intros method Hget. discriminate Hget.
  - intros Hr. discriminate Hr.
  - apply guarded_nil.
Defined.

(** C6, on the code.  The readiness event is created once, in [__init__],
    and never cleared, so the claim holds for the first session of an object
    only.  An object that went through one session enters the next with the
    event set: against a server that never reports the end of its indexing,
    on which the session of a new object stays suspended, the second session
    yields although its handler was handed no message that contains
    "Finished" and the event was not set in it. *)
Theorem reused_object_yields_before_readiness :
  let r := start_server flag_scope (posix 4242) sample_template "/home/dev/todo"
             silent_script used_adapter in
  server_ready used_adapter = true
  /\ In Yielded (log r)
  /\ (forall message,
        In (Handled "window/logMessage" message) (log r) ->
        str_in "Finished" message = false)
  /\ ~ In ReadySet (log r)
  /\ ~ marker_observed (log r)
  /\ outcome (start_server flag_scope (posix 4242) sample_template "/home/dev/todo"
                silent_script new_adapter) = Blocked.
Proof.
  cbv zeta.
  assert (Hready : ~ In ReadySet
            (log (start_server flag_scope (posix 4242) sample_template
                    "/home/dev/todo" silent_script used_adapter))).
  { vm_compute. intros H.
    repeat (destruct H as [H|H]; [discriminate H|]). exact H. }
  split; [reflexivity|].
  split; [vm_compute; tauto|].
  split.
  { intros message H. vm_compute in H.
    repeat (destruct H as [H|H];
            [first [discriminate H | inversion H; reflexivity]|]).
    destruct H. }
  split; [exact Hready|].
  split; [intros [_ H]; exact (Hready H) | reflexivity].
Qed.

(** X22.  The first session of an object.  On an object whose readiness
    event is unset and on which [window_log_message] is registered for
    [window/logMessage] at most, as [__init__] leaves it, every yield of the
    session comes after the handler was handed, in this same session, a
    [window/logMessage] message that contains "Finished" and set the
    event. *)
Theorem first_session_yields_after_readiness {B : Type}
    (super : ParentScope B) (os : OS) (template : json) (root : string)
    (sc : Script) (a : Adapter B) :
  registry_sound a ->
  server_ready a = false ->
  guarded marker_observed Yielded
    (log (start_server super os template root sc a)).
Proof.
  intros Hreg Hunset pre post Hlog.
  assert (HI : session_invariant [] a).
  { split; [exact Hreg|]. split; [congruence | apply guarded_nil]. }
  exact (proj1 (yield_only_after_readiness super os template root sc [] a HI)
           pre post Hlog).
Qed.

Lemma first_session_yields_after_readiness_witness :
  marker_observed
    (firstn 17
       (log (start_server flag_scope (posix 4242) sample_template
               "/home/dev/todo" good_script new_adapter))).
Proof.
  apply (first_session_yields_after_readiness flag_scope (posix 4242)
           sample_template "/home/dev/todo" good_script new_adapter
           (proj1 new_adapter_session_invariant) eq_refl
           (firstn 17
              (log (start_server flag_scope (posix 4242) sample_template
                      "/home/dev/todo" good_script new_adapter)))
           (skipn 18
              (log (start_server flag_scope (posix 4242) sample_template
                      "/home/dev/todo" good_script new_adapter)))).
  vm_compute. reflexivity.
Defined.

(** With a server that reports the end of its indexing the generator does
    yield, and without such a report it never does. *)
Example session_yields_once_ready :
  In Yielded
    (log (start_server flag_scope (posix 4242) sample_template "/home/dev/todo"
            good_script new_adapter)).
Proof. vm_compute. tauto. Qed.

(** ** Leaving the scope *)

Lemma notin_snoc {A : Type} (x e : A) (l : list A) :
  e <> x -> ~ In x l -> ~ In x (l ++ [e])%list.
Proof.
  intros Hne Hl Hin. apply in_app_or in Hin. destruct Hin as [H|[H|[]]]; auto.
Qed.

Lemma in_snoc_other {A : Type} (x e : A) (l : list A) :
  e <> x -> In x (l ++ [e])%list -> In x l.
Proof.
  intros Hne Hin. apply in_app_or in Hin.
  destruct Hin as [H|[H|[]]]; [exact H | contradiction].
Qed.

Section Leak.

Context {B : Type}.

Ltac keep_running :=
  cbv beta; intros;
  repeat match goal with
  | H : _ /\ _ |- _ => destruct H
  | |- context [match ?r with Ok _ => _ | Raise _ => _ end] => destruct r
  end;
  unfold running, unstopped in *;
  repeat match goal with
  | H : _ /\ _ |- _ => destruct H
  | |- _ /\ _ => split
  end;
  simpl;
  try reflexivity; try assumption;
  try (repeat (apply notin_snoc; [discriminate|]); assumption);
  try (let Hy := fresh in
       intros Hy; try reflexivity; try assumption;
       repeat (apply in_snoc_other in Hy; [|discriminate]); auto).

Lemma running_dispatch (m : Inbound) :
  triple (@running B) (dispatch m) (fun _ => running) running.
Proof.
  apply triple_dispatch. intros h method message.
  destruct h; unfold handle, logger_log;
    (eapply triple_weaken; [|wp_chain (@running B)]);
    intros hist a [H _]; try destruct (str_in "Finished" message);
    revert H; keep_running.
Qed.

Lemma unstopped_start_server (super : ParentScope B) (os : OS)
    (template : json) (root : string) (sc : Script) (e : Exn) :
  block_result sc = Raise e ->
  triple (fun hist a => @unstopped B hist a /\ ~ In Yielded hist)
    (start_server super os template root sc)
    (fun _ _ _ => False) unstopped.
Proof.
  intros Hblock. unfold_session. rewrite Hblock.
  eapply triple_weaken; [|wp_chain (@running B)];
    try apply running_dispatch.
  all: solve [keep_running].
Qed.

(** Whatever the server does, a session whose block raises does not end
    normally, sends no shutdown request and does not stop the connection;
    the process that ran when the generator yielded still runs at the end. *)
Lemma block_error_never_stops (super : ParentScope B) (os : OS)
    (template : json) (root : string) (sc : Script) (e : Exn) (a : Adapter B) :
  block_result sc = Raise e ->
  outcome (start_server super os template root sc a) <> Returned tt
  /\ ~ In (RequestSent "shutdown") (log (start_server super os template root sc a))
  /\ ~ In ProcessStopped (log (start_server super os template root sc a))
  /\ (In Yielded (log (start_server super os template root sc a)) ->
      process_running (state (start_server super os template root sc a)) = true).
Proof.
  intros Hblock.
  pose proof (unstopped_start_server super os template root sc e Hblock [] a) as H.
  rewrite app_nil_l in H.
  assert (H0 : @unstopped B [] a /\ ~ In Yielded []).
  { unfold unstopped. simpl. tauto. }
  specialize (H H0).
  destruct (outcome (start_server super os template root sc a)) as [[]| |];
    [contradiction | |];
    destruct H as (Hy & Hs & Hp); (split; [discriminate | auto]).
Qed.

End Leak.

(** C1, on the code.  A session whose block raises: the generator has yielded,
    the exception leaves the scope, no shutdown request was sent, the
    connection was not stopped and the child process is still running. *)
Theorem block_error_skips_shutdown :
  let r := start_server flag_scope (posix 4242) sample_template "/home/dev/todo"
             failing_block_script new_adapter in
  In Yielded (log r)
  /\ outcome r = Raised CallerError
  /\ ~ In (RequestSent "shutdown") (log r)
  /\ ~ In ProcessStopped (log r)
  /\ process_running (state r) = true.
Proof.
  vm_compute. repeat split; try tauto;
    intros H; repeat (destruct H as [H|H]; [discriminate H|]); exact H.
Qed.

(** The same block returning: the shutdown request, its acknowledgement, the
    exit notification and the stop follow, and the process is gone. *)
Example block_return_drives_shutdown :
  let r := start_server flag_scope (posix 4242) sample_template "/home/dev/todo"
             good_script new_adapter in
  outcome r = Returned tt
  /\ process_running (state r) = false
  /\ log r =
     [Registered "window/logMessage" window_log_message;
      Registered "workspace/executeClientCommand" execute_client_command_handler;
      Registered "$/progress" do_nothing;
      Registered "textDocument/publishDiagnostics" do_nothing;
      Logged "Starting Ruby server process";
      ProcessStarted;
      Logged "Sending initialize request from LSP client to LSP server and awaiting response";
      RequestSent "initialize";
      Handled "window/logMessage" "Starting";
      Logged "LSP: window/logMessage: Starting";
      ResponseReceived "initialize";
      NotificationSent "initialized";
      CompletionsAvailableSet;
      Handled "$/progress" "";
      Handled "window/logMessage" "Finished indexing";
      Logged "LSP: window/logMessage: Finished indexing";
      ReadySet;
      Yielded;
      Handled "workspace/executeClientCommand" "";
      Replied "workspace/executeClientCommand";
      Handled "window/logMessage" "Idle";
      Logged "LSP: window/logMessage: Idle";
      RequestSent "shutdown";
      ResponseReceived "shutdown";
      NotificationSent "exit";
      ProcessStopped].
Proof. vm_compute. repeat split. Qed.

(** ** Initialize Parameter Builder: further behaviour *)

(** X1.  A repository path that is not absolute makes the builder raise
    [ValueError], from [as_uri], once the template passed the checks on its
    documentation key, its root path and its root URI. *)
Theorem get_initialize_params_relative_path (os : OS) (t : json) (p : string) :
  Params.has_key t "_description" = true ->
  Params.holds (Params.field t "rootPath") "$rootPath" = true ->
  Params.holds (Params.field t "rootUri") "$rootUri" = true ->
  path_is_absolute os p = false ->
  Params._get_initialize_params os t p = Raise ValueError.
Proof.
  intros Hd H1 H2 Hrel.
  apply holds_true in H1, H2.
  unfold Params.has_key, Params.field in *.
  destruct t as [| | | | |d]; try discriminate.
  unfold Params._get_initialize_params; simpl.
  destruct (dict_get "_description" d); [|discriminate]. simpl.
  dict_simpl. rewrite H1; simpl. dict_simpl. rewrite H2; simpl.
  unfold as_uri. rewrite Hrel. reflexivity.
Qed.

Lemma get_initialize_params_relative_path_witness :
  Params._get_initialize_params (posix 4242) sample_template "home/dev/todo"
  = Raise ValueError.
Proof.
  exact (get_initialize_params_relative_path (posix 4242) sample_template
           "home/dev/todo" eq_refl eq_refl eq_refl eq_refl).
Defined.

(** X2.  What the builder returns is not a template any more: handing a
    result back to the builder, for any path and on any host, raises
    [KeyError]. *)
Theorem get_initialize_params_result_not_reusable
    (os os' : OS) (t r : json) (p p' : string) :
  Params._get_initialize_params os t p = Ok r ->
  Params._get_initialize_params os' r p' = Raise KeyError.
Proof.
  intros Hr.
  destruct (get_initialize_params_inv os t p r Hr) as (Hd & Hs & Habs).
  destruct (sentinels_present_shape t Hs)
    as (d & fd & rest & -> & H1 & H2 & H3 & H4 & H5).
  assert (Hdoc : dict_get "_description" d <> None).
  { unfold Params.has_key in Hd; simpl in Hd.
    destruct (dict_get "_description" d); [discriminate | discriminate Hd]. }
  rewrite (get_initialize_params_run os d fd rest p Hdoc H1 H2 H3 H4 H5 Habs) in Hr.
  inversion Hr; subst r; clear Hr.
  unfold Params._get_initialize_params; simpl. dict_simpl. reflexivity.
Qed.

Lemma get_initialize_params_result_not_reusable_witness :
  exists r,
    Params._get_initialize_params (posix 4242) sample_template "/home/dev/todo" = Ok r
    /\ Params._get_initialize_params (posix 4242) r "/home/dev/todo" = Raise KeyError.
Proof.
  eexists. split; [reflexivity|].
  apply (get_initialize_params_result_not_reusable (posix 4242) (posix 4242)
           sample_template _ "/home/dev/todo" "/home/dev/todo").
  reflexivity.
Defined.

Lemma keys_dict_set_present (k : string) (v : json) (d : dict) :
  dict_get k d <> None -> map fst (dict_set k v d) = map fst d.
Proof.
  induction d as [|[k0 v0] rest IH]; simpl; [congruence|].
  destruct (String.eqb_spec k0 k) as [->|Hne]; simpl; [reflexivity|].
  intros H. now rewrite IH.
Qed.

Lemma keys_dict_set_absent (k : string) (v : json) (d : dict) :
  dict_get k d = None -> map fst (dict_set k v d) = (map fst d ++ [k])%list.
Proof.
  induction d as [|[k0 v0] rest IH]; simpl; [reflexivity|].
  destruct (String.eqb_spec k0 k) as [->|Hne]; simpl; [discriminate|].
  intros H. now rewrite IH.
Qed.

Lemma keys_dict_del (k : string) (d : dict) :
  map fst (dict_del k d) = filter (fun k' => negb (String.eqb k' k)) (map fst d).
Proof.
  induction d as [|[k0 v0] rest IH]; simpl; [reflexivity|].
  destruct (String.eqb k0 k); simpl; now rewrite IH.
Qed.

(** X3.  The builder adds and drops no key but the two it is written to
    touch: the result has the keys of the template in their order, without
    [_description], and with [processId] at the end when the template had
    none; the first workspace folder keeps its keys. *)
Theorem get_initialize_params_keys (os : OS) (t r : json) (p : string) :
  Params._get_initialize_params os t p = Ok r ->
  keys r
  = (filter (fun k => negb (String.eqb k "_description")) (keys t)
     ++ (if Params.has_key t "processId" then [] else ["processId"]))%list
  /\ option_map keys (Params.first_folder r)
     = option_map keys (Params.first_folder t).
Proof.
  intros Hr.
  destruct (get_initialize_params_inv os t p r Hr) as (Hd & Hs & Habs).
  destruct (sentinels_present_shape t Hs)
    as (d & fd & rest & -> & H1 & H2 & H3 & H4 & H5).
  assert (Hdoc : dict_get "_description" d <> None).
  { unfold Params.has_key in Hd; simpl in Hd.
    destruct (dict_get "_description" d); [discriminate | discriminate Hd]. }
  rewrite (get_initialize_params_run os d fd rest p Hdoc H1 H2 H3 H4 H5 Habs) in Hr.
  inversion Hr; subst r; clear Hr. split.
  - unfold keys, Params.has_key, Params.field.
    repeat (rewrite keys_dict_set_present;
            [|dict_simpl; rewrite ?H1, ?H2, ?H3; discriminate]).
    destruct (dict_get "processId" d) eqn:Hp.
    + rewrite keys_dict_set_present, keys_dict_del, app_nil_r;
        [reflexivity | dict_simpl; rewrite Hp; discriminate].
    + rewrite keys_dict_set_absent, keys_dict_del;
        [reflexivity | dict_simpl; exact Hp].
  - unfold Params.first_folder, Params.field. dict_simpl. rewrite H3. simpl.
    repeat (rewrite keys_dict_set_present;
            [|dict_simpl; rewrite ?H4, ?H5; discriminate]).
    reflexivity.
Qed.

Lemma get_initialize_params_keys_witness :
  exists r,
    Params._get_initialize_params (posix 4242) sample_template "/home/dev/todo" = Ok r
    /\ keys r = ["processId"; "rootPath"; "rootUri"; "capabilities";
                 "workspaceFolders"].
Proof.
  eexists. split; [reflexivity|].
  exact (proj1 (get_initialize_params_keys (posix 4242) sample_template _
                  "/home/dev/todo" eq_refl)).
Defined.

(** X4.  Which exception a bad template gives, the checks running in the
    order of the source: [TypeError] when the file holds no object,
    [KeyError] when the object lacks [_description] or, with it, lacks
    [rootPath], [AssertionError] when [rootPath] holds another value, and
    [IndexError] when everything up to the root URI is in order, the path is
    absolute and the list of workspace folders is empty. *)
Theorem get_initialize_params_error_kinds (os : OS) (p : string) :
  (forall t, is_dict t = false ->
     Params._get_initialize_params os t p = Raise TypeError)
  /\ (forall t, is_dict t = true -> Params.has_key t "_description" = false ->
        Params._get_initialize_params os t p = Raise KeyError)
  /\ (forall t, Params.has_key t "_description" = true ->
        Params.has_key t "rootPath" = false ->
        Params._get_initialize_params os t p = Raise KeyError)
  /\ (forall t, Params.has_key t "_description" = true ->
        Params.has_key t "rootPath" = true ->
        Params.holds (Params.field t "rootPath") "$rootPath" = false ->
        Params._get_initialize_params os t p = Raise AssertionError)
  /\ (forall t, Params.has_key t "_description" = true ->
        Params.holds (Params.field t "rootPath") "$rootPath" = true ->
        Params.holds (Params.field t "rootUri") "$rootUri" = true ->
        path_is_absolute os p = true ->
        Params.field t "workspaceFolders" = Some (JArr []) ->
        Params._get_initialize_params os t p = Raise IndexError).
Proof.
  unfold Params._get_initialize_params, Params.has_key, Params.field, is_dict.
  repeat split; intros t; destruct t as [| | | | |d]; simpl;
    try discriminate; try reflexivity.
  - intros _. destruct (dict_get "_description" d); [discriminate|reflexivity].
  - destruct (dict_get "_description" d); [|discriminate]. intros _. simpl.
    dict_simpl. destruct (dict_get "rootPath" d); [discriminate|reflexivity].
  - destruct (dict_get "_description" d); [|discriminate]. intros _. simpl.
    dict_simpl. destruct (dict_get "rootPath" d) as [v|]; [|discriminate].
    simpl. intros _ Hv. rewrite Hv. reflexivity.
  - destruct (dict_get "_description" d); [|discriminate]. intros _ H1 H2 Habs Hwf.
    apply holds_true in H1, H2. simpl.
    dict_simpl. rewrite H1; simpl. dict_simpl. rewrite H2; simpl.
    unfold as_uri. rewrite Habs; simpl. dict_simpl. rewrite Hwf. reflexivity.
Qed.

Lemma get_initialize_params_error_kinds_witness :
  Params._get_initialize_params (posix 4242) (JArr []) "/home/dev/todo"
    = Raise TypeError
  /\ Params._get_initialize_params (posix 4242) undocumented_template "/home/dev/todo"
     = Raise KeyError
  /\ Params._get_initialize_params (posix 4242) folderless_template "/home/dev/todo"
     = Raise IndexError.
Proof.
  destruct (get_initialize_params_error_kinds (posix 4242) "/home/dev/todo")
    as (Hty & Hkey & _ & _ & Hidx).
  split; [|split].
  - apply Hty. reflexivity.
  - apply Hkey; reflexivity.
  - apply Hidx; reflexivity.
Defined.

(** ** Runtime Dependency Bootstrapper: further behaviour *)

Section BootstrapMore.

Context {Logger Config : Type}.
Variable h : Host.
Variable manifest : json.
Variable ruby_ls_dir : string.
Variable logger : Logger.
Variable config : Config.

(** X5.  The platform gate comes first: on a platform outside the allow-list
    the function raises [AssertionError] and leaves the world as it found
    it, whatever the manifest holds and whatever is installed. *)
Theorem setup_runtime_dependencies_platform_gate (w : World) :
  platform_in (get_platform_id h) valid_platforms = false ->
  setup_runtime_dependencies h manifest ruby_ls_dir logger config w
  = (w, Raise AssertionError).
Proof.
  intros Hp. rewrite setup_runtime_dependencies_paths, Hp. reflexivity.
Qed.

(** X6.  With the platform supported and the manifest documented, a missing
    bundle or a missing gem makes the function raise [AssertionError] before
    it looks at the installation directory: nothing is created, nothing is
    spawned. *)
Theorem setup_runtime_dependencies_tool_gate (w : World) :
  platform_in (get_platform_id h) valid_platforms = true ->
  Params.has_key manifest "_description" = true ->
  is_not_None (which h "bundle") && is_not_None (which h "gem") = false ->
  setup_runtime_dependencies h manifest ruby_ls_dir logger config w
  = (w, Raise AssertionError).
Proof.
  intros Hp Hd Ht. rewrite setup_runtime_dependencies_paths, Hp.
  unfold Params.has_key, Params.field in Hd.
  destruct manifest as [| | | | |d]; try discriminate.
  destruct (dict_get "_description" d); [|discriminate].
  destruct (is_not_None (which h "bundle")); [|reflexivity].
  destruct (is_not_None (which h "gem")); [discriminate|reflexivity].
Qed.

(** The loop on entries that all install: one spawn for each, in order. *)
Lemma install_all (user : string) (deps cmds : list json) (w : World) :
  pw_name h = Ok user ->
  Forall2 (fun dep c => getitem dep "command" = Ok c) deps cmds ->
  (forall c f, In c cmds ->
     snd (subprocess_run h (spawn_for user ruby_ls_dir c) f) = Ok tt) ->
  snd (install h ruby_ls_dir deps w) = Ok tt
  /\ spawned (fst (install h ruby_ls_dir deps w))
     = (spawned w ++ map (spawn_for user ruby_ls_dir) cmds)%list.
Proof.
  intros Hu Hall. revert w.
  induction Hall as [|dep c deps cmds Hc _ IH]; intros w Hok; simpl.
  - now rewrite app_nil_r.
  - unfold io_bind, io_lift, run. rewrite Hu, Hc. simpl.
    fold (spawn_for user ruby_ls_dir c).
    pose proof (Hok c (fs w) (or_introl eq_refl)) as Hr.
    destruct (subprocess_run h (spawn_for user ruby_ls_dir c) (fs w)) as [f' r].
    simpl in Hr. subst r.
    destruct (IH {| fs := f'; spawned := spawned w ++ [spawn_for user ruby_ls_dir c] |})
      as [Hres Hsp].
    { intros c' f Hin. apply Hok. now right. }
    split; [exact Hres|]. rewrite Hsp. simpl. now rewrite <- app_assoc.
Qed.


(** X7.  A first installation.  With the gates passed, no installation
    directory and a place where [os.makedirs] can create it, the function
    creates the directory and runs the command of every entry of the
    manifest's list once, in the order of the list, as the invoking user and
    inside the directory, then returns the launch command. *)
Theorem setup_runtime_dependencies_installs
    (user : string) (deps cmds : list json) (w : World) :
  gates_pass h manifest = true ->
  Params.field manifest "runtimeDependencies" = Some (JArr deps) ->
  os_path_exists ruby_ls_dir (fs w) = false ->
  creatable h ruby_ls_dir w ->
  pw_name h = Ok user ->
  Forall2 (fun dep c => getitem dep "command" = Ok c) deps cmds ->
  (forall c f, In c cmds ->
     snd (subprocess_run h (spawn_for user ruby_ls_dir c) f) = Ok tt) ->
  snd (setup_runtime_dependencies h manifest ruby_ls_dir logger config w)
  = Ok "bundle exec ruby-lsp"
  /\ spawned (fst (setup_runtime_dependencies h manifest ruby_ls_dir logger config w))
     = (spawned w ++ map (spawn_for user ruby_ls_dir) cmds)%list.
Proof.
  unfold gates_pass. rewrite !andb_true_iff.
  intros [[[Hp Hd] Hb] Hg] Hdeps Hex Hmk Hu Hall Hok.
  rewrite setup_runtime_dependencies_paths, Hp.
  unfold Params.has_key, Params.field in Hd, Hdeps.
  destruct manifest as [| | | | |d]; try discriminate.
  destruct (dict_get "_description" d); [|discriminate].
  unfold creatable in Hmk.
  rewrite Hb, Hg, Hex, Hmk. unfold dict_get_default. rewrite Hdeps. simpl.
  destruct (install_all user deps cmds (created ruby_ls_dir w) Hu Hall Hok)
    as [Hres Hsp].
  destruct (install h ruby_ls_dir deps (created ruby_ls_dir w)) as [w' r].
  simpl in Hres, Hsp. subst r. simpl. auto.
Qed.



(** X21.  A directory that cannot be created.  With the gates passed and no
    installation directory, when [os.makedirs] raises, the function raises
    that error without spawning any command, and does not return the launch
    command. *)
Theorem setup_runtime_dependencies_creation_fails
    (e : Exn) (f : FS) (w : World) :
  gates_pass h manifest = true ->
  os_path_exists ruby_ls_dir (fs w) = false ->
  makedirs_fails h ruby_ls_dir (fs w) = Some (e, f) ->
  setup_runtime_dependencies h manifest ruby_ls_dir logger config w
  = ({| fs := f; spawned := spawned w |}, Raise e).
Proof.
  unfold gates_pass. rewrite !andb_true_iff.
  intros [[[Hp Hd] Hb] Hg] Hex Hmk.
  rewrite setup_runtime_dependencies_paths, Hp.
  unfold Params.has_key, Params.field in Hd.
  destruct manifest as [| | | | |d]; try discriminate.
  destruct (dict_get "_description" d); [|discriminate].
  rewrite Hb, Hg, Hex, Hmk. reflexivity.
Qed.

End BootstrapMore.

Lemma setup_runtime_dependencies_creation_fails_witness :
  setup_runtime_dependencies read_only_host sample_manifest install_dir tt tt
    fresh_world
  = (fresh_world, Raise PermissionError).
Proof.
  exact (setup_runtime_dependencies_creation_fails read_only_host sample_manifest
           install_dir tt tt PermissionError ["/opt"] fresh_world
           eq_refl eq_refl eq_refl).
Defined.

Lemma setup_runtime_dependencies_platform_gate_witness :
  setup_runtime_dependencies unsupported_host sample_manifest install_dir tt tt
    fresh_world
  = (fresh_world, Raise AssertionError).
Proof.
  exact (setup_runtime_dependencies_platform_gate unsupported_host sample_manifest
           install_dir tt tt fresh_world eq_refl).
Defined.

Lemma setup_runtime_dependencies_tool_gate_witness :
  setup_runtime_dependencies host_without_bundle sample_manifest install_dir tt tt
    fresh_world
  = (fresh_world, Raise AssertionError).
Proof.
  exact (setup_runtime_dependencies_tool_gate host_without_bundle sample_manifest
           install_dir tt tt fresh_world eq_refl eq_refl eq_refl).
Defined.

Lemma setup_runtime_dependencies_installs_witness :
  spawned (fst (setup_runtime_dependencies dev_host sample_manifest install_dir
                  tt tt fresh_world))
  = [spawn_for "dev" install_dir (JStr "gem install ruby-lsp");
     spawn_for "dev" install_dir (JStr "bundle install")].
Proof.
  refine (proj2 (setup_runtime_dependencies_installs dev_host sample_manifest
                   install_dir tt tt "dev" _
                   [JStr "gem install ruby-lsp"; JStr "bundle install"]
                   fresh_world eq_refl eq_refl eq_refl eq_refl eq_refl _ _)).
  - repeat constructor.
  - intros c f _. reflexivity.
Defined.



(** Whatever it did before, the function returns one string. *)
Lemma setup_runtime_dependencies_result {Logger Config : Type}
    (h : Host) (manifest : json) (ruby_ls_dir : string)
    (logger : Logger) (config : Config) (w w' : World) (s : string) :
  setup_runtime_dependencies h manifest ruby_ls_dir logger config w = (w', Ok s) ->
  s = ruby_lsp_command.
Proof.
  rewrite setup_runtime_dependencies_paths.
  repeat match goal with
  | |- context [match ?x with _ => _ end] => destruct x
  end; intros H; inversion H; reflexivity.
Qed.

(** X10.  Constructing the adapter runs the bootstrap: [__init__] raises
    exactly when [setup_runtime_dependencies] does, with the same error and
    the same effect on the machine; when it returns, the object launches
    "bundle exec ruby-lsp" inside the installation directory, has no handler
    and no process yet, and its readiness event is not set. *)
Theorem init_follows_bootstrap {B Logger Config : Type}
    (h : Host) (manifest : json) (ruby_ls_dir : string) (b0 : B)
    (config : Config) (logger : Logger) (root : string) (w : World) :
  (forall w' e,
     setup_runtime_dependencies h manifest ruby_ls_dir logger config w
       = (w', Raise e)
     <-> __init__ h manifest ruby_ls_dir b0 config logger root w = (w', Raise e))
  /\ (forall w' a,
        __init__ h manifest ruby_ls_dir b0 config logger root w = (w', Ok a) ->
        w' = fst (setup_runtime_dependencies h manifest ruby_ls_dir logger config w)
        /\ a = {| parent := b0;
                  launch_cmd := "bundle exec ruby-lsp";
                  launch_cwd := ruby_ls_dir;
                  notification_handlers := [];
                  request_handlers := [];
                  server_ready := false;
                  completions_available := false;
                  process_running := false |}).
Proof.
  unfold __init__, io_bind, io_ret.
  pose proof (setup_runtime_dependencies_result h manifest ruby_ls_dir logger
                config w) as Hcmd.
  destruct (setup_runtime_dependencies h manifest ruby_ls_dir logger config w)
    as [w1 [cmd|e1]].
  - split.
    + intros w' e. split; intros H; discriminate H.
    + intros w' a H. inversion H; subst. rewrite (Hcmd w' cmd eq_refl). auto.
  - split.
    + intros w' e. split; intros H; inversion H; reflexivity.
    + intros w' a H. discriminate H.
Qed.

Lemma init_follows_bootstrap_witness :
  __init__ host_without_bundle sample_manifest install_dir false tt tt
    "/home/dev/todo" fresh_world
  = (fresh_world, Raise AssertionError)
  /\ exists w',
       __init__ dev_host sample_manifest install_dir false tt tt "/home/dev/todo"
         fresh_world
       = (w', Ok new_adapter).
Proof.
  split.
  - apply (proj1 (init_follows_bootstrap host_without_bundle sample_manifest
                    install_dir false tt tt "/home/dev/todo" fresh_world)).
    reflexivity.
  - eexists. reflexivity.
Defined.

(** ** How a session ends *)

Section Outcomes.

Context {B : Type}.

Lemma outcomes_ret {A} (x : A) (Q : A -> Assertion B) (R : Exn -> Assertion B)
    (K : Assertion B) :
  outcomes (Q x) (act_ret x) Q R K.
Proof. intros hist a H. simpl. now rewrite app_nil_r. Qed.

Lemma outcomes_emit (e : Event) (Q : unit -> Assertion B)
    (R : Exn -> Assertion B) (K : Assertion B) :
  outcomes (fun hist a => Q tt (hist ++ [e])%list a) (emit e) Q R K.
Proof. intros hist a H. exact H. Qed.

Lemma outcomes_modify (f : Adapter B -> Adapter B) (Q : unit -> Assertion B)
    (R : Exn -> Assertion B) (K : Assertion B) :
  outcomes (fun hist a => Q tt hist (f a)) (modify f) Q R K.
Proof. intros hist a H. simpl. now rewrite app_nil_r. Qed.

Lemma outcomes_lift {A} (r : Result A) (Q : A -> Assertion B)
    (R : Exn -> Assertion B) (K : Assertion B) :
  outcomes (fun hist a => match r with
                          | Ok x => Q x hist a
                          | Raise e => R e hist a
                          end)
           (act_lift r) Q R K.
Proof. intros hist a H. simpl. rewrite app_nil_r. destruct r; exact H. Qed.

Lemma outcomes_bind {A C} (P : Assertion B) (m : Act B A) (Q : A -> Assertion B)
    (k : A -> Act B C) (Q' : C -> Assertion B) (R : Exn -> Assertion B)
    (K : Assertion B) :
  outcomes P m Q R K ->
  (forall x, outcomes (Q x) (k x) Q' R K) ->
  outcomes P (act_bind m k) Q' R K.
Proof.
  intros Hm Hk hist a HP. specialize (Hm hist a HP).
  unfold act_bind. destruct (outcome (m a)) as [x|e|]; simpl; try exact Hm.
  specialize (Hk x _ _ Hm). rewrite app_assoc.
  destruct (outcome (k x (state (m a)))); exact Hk.
Qed.

Lemma outcomes_weaken {A} (P P' : Assertion B) (m : Act B A)
    (Q : A -> Assertion B) (R : Exn -> Assertion B) (K : Assertion B) :
  (forall hist a, P hist a -> P' hist a) ->
  outcomes P' m Q R K ->
  outcomes P m Q R K.
Proof. intros HPP Hm hist a HP. apply Hm, HPP, HP. Qed.

(** A handler always returns. *)
Lemma dispatch_returns (m : Inbound) (a : Adapter B) :
  outcome (dispatch m a) = Returned tt.
Proof.
  unfold dispatch.
  destruct m as [method message|method];
    match goal with
    | |- context [registry_get ?k ?r] => destruct (registry_get k r) as [[]|]
    end; simpl; try reflexivity.
  destruct (str_in "Finished" message); reflexivity.
Qed.

Lemma triple_dispatch_keeps (I : Assertion B) (m : Inbound) :
  triple I (dispatch m) (fun _ => I) I -> dispatch_keeps I m.
Proof. intros H hist a HI. now apply triple_kept. Qed.

Lemma outcomes_deliver (I : Assertion B) (ms : list Inbound)
    (Q : unit -> Assertion B) (R : Exn -> Assertion B) (K : Assertion B) :
  Forall (dispatch_keeps I) ms ->
  (forall hist a, I hist a -> Q tt hist a) ->
  outcomes I (deliver ms) Q R K.
Proof.
  intros Hall HQ. induction Hall as [|m rest Hm _ IH]; intros hist a HI; simpl.
  - rewrite app_nil_r. auto.
  - unfold act_bind. rewrite dispatch_returns. simpl. rewrite app_assoc.
    apply IH, Hm, HI.
Qed.

(** The wait returns only with the event set, and stays suspended only with
    the event unset. *)
Lemma outcomes_server_ready_wait (I : Assertion B) (ms : list Inbound)
    (Q : list Inbound -> Assertion B) (R : Exn -> Assertion B)
    (K : Assertion B) :
  Forall (dispatch_keeps I) ms ->
  (forall pending hist a, I hist a -> server_ready a = true -> Q pending hist a) ->
  (forall hist a, I hist a -> server_ready a = false -> K hist a) ->
  outcomes I (server_ready_wait ms) Q R K.
Proof.
  intros Hall HQ HK.
  induction Hall as [|m rest Hm _ IH]; intros hist a HI; simpl.
  - destruct (server_ready a) eqn:Hr; simpl; rewrite app_nil_r; auto.
  - destruct (server_ready a) eqn:Hr.
    + simpl. rewrite app_nil_r. auto.
    + unfold act_bind. rewrite dispatch_returns. simpl. rewrite app_assoc.
      apply IH, Hm, HI.
Qed.

Lemma outcomes_async_with_super {A} (super : ParentScope B) (block : Act B A)
    (P : Assertion B) (Q : A -> Assertion B) (R : Exn -> Assertion B)
    (K : Assertion B) :
  outcomes P block
    (fun x hist a => Q x hist (with_parent (parent_exit super false) a))
    (fun e hist a => R e hist (with_parent (parent_exit super true) a))
    K ->
  outcomes (fun hist a => P hist (with_parent (parent_enter super) a))
    (async_with_super super block) Q R K.
Proof.
  intros Hb hist a HP. specialize (Hb hist _ HP). unfold async_with_super.
  destruct (outcome (block (with_parent (parent_enter super) a))) eqn:Ho;
    simpl; try rewrite Ho; exact Hb.
Qed.

End Outcomes.

(** The chain of a session, with [I0] kept by the messages handled while the
    initialize request is pending, [I1] by those handled during the wait for
    readiness, and [I2] by those handled inside the caller's block. *)
Ltac outcomes_step :=
  first [ apply outcomes_emit | apply outcomes_modify | apply outcomes_lift
        | apply outcomes_ret ].

Ltac outcomes_chain I0 I1 I2 :=
  lazymatch goal with
  | |- outcomes _ (act_bind _ _) _ _ _ =>
      eapply outcomes_bind;
      [ | intros ?; outcomes_chain I0 I1 I2 ]; [ outcomes_chain I0 I1 I2 | .. ]
  | |- outcomes _ (deliver (_ ++ _)) _ _ _ => apply (outcomes_deliver I2)
  | |- outcomes _ (deliver _) _ _ _ => apply (outcomes_deliver I0)
  | |- outcomes _ (server_ready_wait _) _ _ _ =>
      apply (outcomes_server_ready_wait I1)
  | |- outcomes _ (async_with_super _ _) _ _ _ =>
      apply outcomes_async_with_super; outcomes_chain I0 I1 I2
  | |- outcomes _ _ _ _ _ => outcomes_step
  end.

Ltac split_results :=
  repeat match goal with
  | H : _ /\ _ |- _ => destruct H
  | |- context [match ?r with Ok _ => _ | Raise _ => _ end] => destruct r
  end.

Section Registrations.

Context {B : Type}.
Variable e : Event.
Hypothesis registered : In e registrations.

Lemma ordered_dispatch (m : Inbound) :
  triple (@ordered B e ProcessStarted) (dispatch m)
    (fun _ => ordered e ProcessStarted) (ordered e ProcessStarted).
Proof.
  apply triple_dispatch. intros h method message.
  destruct h; unfold handle, logger_log;
    (eapply triple_weaken; [|wp_chain (@ordered B e ProcessStarted)]);
    intros hist a [H _]; unfold ordered, always_after in *; cbv beta;
    try destruct (str_in "Finished" message);
    repeat (apply guarded_snoc_other; [discriminate|]); exact H.
Qed.

Lemma ordered_start_server (super : ParentScope B) (os : OS)
    (template : json) (root : string) (sc : Script) :
  triple (@ordered B e ProcessStarted)
    (start_server super os template root sc)
    (fun _ => ordered e ProcessStarted) (ordered e ProcessStarted).
Proof.
  unfold_session.
  eapply triple_weaken; [|wp_chain (@ordered B e ProcessStarted)];
    try apply ordered_dispatch;
    unfold ordered, always_after; cbv beta; intros; split_results;
    try split;
    repeat (apply guarded_snoc_other; [discriminate|]); auto.
  all: apply guarded_snoc;
    [|repeat (apply guarded_snoc_other; [discriminate|]); assumption].
  all: repeat rewrite in_app_iff; simpl in registered |- *; tauto.
Qed.

End Registrations.

(** X11.  The handlers are registered before the server process exists: in
    the events of every session each of the four registrations of
    [start_server] comes before the start of the process. *)
Theorem handlers_registered_before_start {B : Type}
    (super : ParentScope B) (os : OS) (template : json) (root : string)
    (sc : Script) (a : Adapter B) :
  Forall (fun e => always_after e ProcessStarted
                     (log (start_server super os template root sc a)))
    registrations.
Proof.
  apply Forall_forall. intros e He.
  pose proof (triple_kept (ordered e ProcessStarted)
                (start_server super os template root sc) [] a
                (ordered_start_server e He super os template root sc)
                (guarded_nil _ _)) as H.
  unfold ordered in H. rewrite app_nil_l in H. exact H.
Qed.

(** ** The process and the end of the session *)

Ltac events_facts :=
  simpl;
  repeat match goal with
  | |- _ /\ _ => split
  | |- True => exact I
  end;
  try reflexivity; try assumption; try discriminate;
  try (repeat (apply notin_snoc; [discriminate|]); assumption);
  try (repeat rewrite in_app_iff; simpl; tauto);
  try (let Hy := fresh in
       intros Hy; try reflexivity; try assumption;
       repeat (apply in_snoc_other in Hy; [|discriminate]); auto).

Section Tracking.

Context {B : Type}.

Lemma tracked_dispatch (m : Inbound) : dispatch_keeps (@tracked B) m.
Proof.
  apply triple_dispatch_keeps, triple_dispatch. intros h method message.
  destruct h; unfold handle, logger_log;
    (eapply triple_weaken; [|wp_chain (@tracked B)]);
    intros hist a [[H1 H2] _]; try destruct (str_in "Finished" message);
    unfold tracked; cbv beta; events_facts.
Qed.

Lemma tracked_start_server (super : ParentScope B) (os : OS)
    (template : json) (root : string) (sc : Script) :
  outcomes (@tracked B) (start_server super os template root sc)
    (fun _ events a => process_running a = false /\ In ProcessStopped events)
    (fun _ => tracked) tracked.
Proof.
  unfold_session.
  eapply outcomes_weaken;
    [|outcomes_chain (@tracked B) (@tracked B) (@tracked B)];
    try (apply Forall_forall; intros; apply tracked_dispatch);
    unfold tracked; cbv beta; intros; split_results; events_facts.
Qed.

End Tracking.

(** X12.  The child process is stopped exactly when the session returns.  On
    a normal return the connection was stopped and the process is gone; when
    the session raises or stays suspended, at whatever point, the connection
    was not stopped, and a process that was started is left running. *)
Theorem process_stopped_only_on_return {B : Type}
    (super : ParentScope B) (os : OS) (template : json) (root : string)
    (sc : Script) (a : Adapter B) :
  match outcome (start_server super os template root sc a) with
  | Returned _ =>
      process_running (state (start_server super os template root sc a)) = false
      /\ In ProcessStopped (log (start_server super os template root sc a))
  | Raised _ | Blocked =>
      ~ In ProcessStopped (log (start_server super os template root sc a))
      /\ (In ProcessStarted (log (start_server super os template root sc a)) ->
          process_running (state (start_server super os template root sc a))
          = true)
  end.
Proof.
  pose proof (tracked_start_server super os template root sc [] a) as H.
  rewrite app_nil_l in H.
  assert (H0 : @tracked B [] a) by (unfold tracked; simpl; tauto).
  specialize (H H0).
  destruct (outcome (start_server super os template root sc a));
    unfold tracked in H; tauto.
Qed.

(** What one dispatch does: it leaves the object as it is, or it is a
    notification with the marker that went to [window_log_message], which
    set the readiness event; the events it adds are the handler's. *)
Lemma dispatch_cases {B : Type} (m : Inbound) (a : Adapter B) :
  Forall from_handler (log (dispatch m a))
  /\ (state (dispatch m a) = a
      \/ exists method message,
           m = Notification method message
           /\ registry_get method (notification_handlers a)
              = Some window_log_message
           /\ str_in "Finished" message = true
           /\ state (dispatch m a) = with_server_ready true a
           /\ In (Handled method message) (log (dispatch m a))
           /\ In ReadySet (log (dispatch m a))).
Proof.
  unfold dispatch. destruct m as [method message|method].
  - destruct (registry_get method (notification_handlers a)) as [[]|] eqn:Hr;
      simpl; try (split; [repeat constructor | now left]).
    destruct (str_in "Finished" message) eqn:Hm; simpl.
    + split; [repeat constructor|]. right. exists method, message.
      repeat split; auto.
    + split; [repeat constructor | now left].
  - destruct (registry_get method (request_handlers a)) as [[]|] eqn:Hr;
      simpl; split; try (repeat constructor); now left.
Qed.

(** Handlers add none of the events of the session itself. *)
Lemma dispatch_adds_not {B : Type} (x : Event) (m : Inbound)
    (hist : list Event) (a : Adapter B) :
  ~ from_handler x ->
  ~ In x hist -> ~ In x (hist ++ log (dispatch m a))%list.
Proof.
  intros Hx Hh Hin. apply in_app_or in Hin. destruct Hin as [Hin|Hin]; auto.
  destruct (dispatch_cases m a) as [Hall _].
  rewrite Forall_forall in Hall. exact (Hx (Hall x Hin)).
Qed.

Lemma dispatch_keeps_process {B : Type} (m : Inbound) (a : Adapter B) :
  process_running (state (dispatch m a)) = process_running a.
Proof.
  destruct (dispatch_cases m a) as [_ [->|(? & ? & _ & _ & _ & -> & _)]];
    reflexivity.
Qed.

Section Endings.

Context {B : Type}.



Lemma nothing_dispatch (m : Inbound) : dispatch_keeps (@nothing B) m.
Proof. intros hist a []. Qed.

Lemma all_keep (I : Assertion B) (ms : list Inbound) :
  (forall m, dispatch_keeps I m) -> Forall (dispatch_keeps I) ms.
Proof. intros H. apply Forall_forall. intros m _. apply H. Qed.


Lemma stale_readiness_outcomes (super : ParentScope B) (os : OS)
    (template : json) (root : string) (sc : Script) (params : json) :
  start_result sc = Ok tt ->
  Params._get_initialize_params os template root = Ok params ->
  initialize_result sc = Ok tt ->
  outcomes (@latched B) (start_server super os template root sc)
    (fun _ => yielded) (fun _ => yielded) yielded.
Proof.
  intros Hstart Hparams Hinit. unfold_session. rewrite Hstart, Hparams, Hinit.
  eapply outcomes_weaken;
    [|outcomes_chain (@latched B) (@latched B) (@yielded B)];
    try (apply all_keep; intros m;
         first [ apply triple_dispatch_keeps, latched_dispatch
               | intros hist a H; apply in_or_app; left; exact H ]);
    unfold latched, yielded; cbv beta; intros; split_results;
    try congruence; try solve [events_facts].
Qed.

End Endings.



(** X18.  Readiness is carried over from one session to the next.  On an
    object whose readiness event is already set, a session whose server
    starts and answers the initialize request yields at once, whether or not
    that server ever reports the end of its indexing. *)
Theorem stale_readiness_yields {B : Type}
    (super : ParentScope B) (os : OS) (template : json) (root : string)
    (sc : Script) (a : Adapter B) (params : json) :
  server_ready a = true ->
  start_result sc = Ok tt ->
  Params._get_initialize_params os template root = Ok params ->
  initialize_result sc = Ok tt ->
  In Yielded (log (start_server super os template root sc a)).
Proof.
  intros Hr Hstart Hparams Hinit.
  pose proof (stale_readiness_outcomes super os template root sc params
                Hstart Hparams Hinit [] a Hr) as H.
  rewrite app_nil_l in H.
  destruct (outcome (start_server super os template root sc a)); exact H.
Qed.

Lemma stale_readiness_yields_witness :
  In Yielded
    (log (start_server flag_scope (posix 4242) sample_template "/home/dev/todo"
            silent_script (with_server_ready true new_adapter))).
Proof.
  apply (stale_readiness_yields flag_scope (posix 4242) sample_template
           "/home/dev/todo" silent_script (with_server_ready true new_adapter)
           _ eq_refl eq_refl eq_refl eq_refl).
Defined.

(** ** A server that never reports *)

Section Silence.

Context {B : Type}.

Lemma unready_dispatch_quiet (m : Inbound) :
  quiet m -> dispatch_keeps (@unready B) m.
Proof.
  intros Hq hist a (Hreg & Hr & Hy).
  destruct (dispatch_cases m a)
    as [Hall [Hsame|(method & message & -> & Hget & Hm & _)]].
  - rewrite Hsame. repeat split; auto.
    apply dispatch_adds_not; [exact (fun f => f) | exact Hy].
  - exfalso. simpl in Hq. rewrite (Hq (Hreg method Hget)) in Hm. discriminate.
Qed.

Lemma registrations_sound (a a' : Adapter B) :
  notification_handlers a'
  = registry_set "textDocument/publishDiagnostics" do_nothing
      (registry_set "$/progress" do_nothing
         (registry_set "window/logMessage" window_log_message
            (notification_handlers a))) ->
  registry_sound a -> registry_sound a'.
Proof.
  intros Hn Hreg method. rewrite Hn, !registry_get_set.
  destruct (String.eqb "textDocument/publishDiagnostics" method);
    [discriminate|].
  destruct (String.eqb "$/progress" method); [discriminate|].
  destruct (String.eqb_spec "window/logMessage" method); [auto|].
  apply Hreg.
Qed.

Lemma silence_outcomes (super : ParentScope B) (os : OS)
    (template : json) (root : string) (sc : Script) :
  Forall quiet (before_initialize_response sc) ->
  Forall quiet (while_waiting sc) ->
  outcomes (@unready B) (start_server super os template root sc)
    (fun _ => nothing)
    (fun _ events _ =>
       ~ In Yielded events
       /\ ~ (start_result sc = Ok tt
             /\ (exists params,
                   Params._get_initialize_params os template root = Ok params)
             /\ initialize_result sc = Ok tt))
    not_yielded.
Proof.
  intros Hq0 Hq1. unfold_session.
  eapply outcomes_weaken;
    [|outcomes_chain (@unready B) (@unready B) (@nothing B)];
    try (apply all_keep; apply nothing_dispatch);
    try (eapply Forall_impl; [apply unready_dispatch_quiet | eassumption]);
    unfold unready, not_yielded, nothing; cbv beta; intros; split_results;
    try congruence; try contradiction.
  all: repeat split;
    try (eapply registrations_sound; [reflexivity | assumption]);
    try assumption;
    try (repeat (apply notin_snoc; [discriminate|]); assumption);
    try (intros (? & (? & ?) & ?); discriminate).
Qed.

End Silence.

(** X14.  Without the marker the session never becomes ready.  On an object
    whose readiness event is not set, if no [window/logMessage] notification
    that the server sends during the handshake and the wait holds "Finished",
    the generator never yields and the session never returns; if moreover the
    server starts and answers the initialize request, the session stays
    suspended in [server_ready.wait()] for ever: nothing bounds the wait. *)
Theorem silent_server_blocks_session {B : Type}
    (super : ParentScope B) (os : OS) (template : json) (root : string)
    (sc : Script) (a : Adapter B) :
  registry_sound a ->
  server_ready a = false ->
  Forall quiet (before_initialize_response sc) ->
  Forall quiet (while_waiting sc) ->
  ~ In Yielded (log (start_server super os template root sc a))
  /\ outcome (start_server super os template root sc a) <> Returned tt
  /\ (start_result sc = Ok tt ->
      (exists params, Params._get_initialize_params os template root = Ok params) ->
      initialize_result sc = Ok tt ->
      outcome (start_server super os template root sc a) = Blocked).
Proof.
  intros Hreg Hr Hq0 Hq1.
  pose proof (silence_outcomes super os template root sc Hq0 Hq1 [] a) as H.
  rewrite app_nil_l in H.
  assert (H0 : @unready B [] a) by (repeat split; auto).
  specialize (H H0).
  destruct (outcome (start_server super os template root sc a)) as [[]|e|];
    unfold nothing, not_yielded in H.
  - contradiction.
  - destruct H as [Hy Hno]. repeat split; [exact Hy | discriminate | tauto].
  - repeat split; [exact H | discriminate].
Qed.

Lemma silent_server_blocks_session_witness :
  outcome (start_server flag_scope (posix 4242) sample_template "/home/dev/todo"
             silent_script new_adapter) = Blocked.
Proof.
  apply (silent_server_blocks_session flag_scope (posix 4242) sample_template
           "/home/dev/todo" silent_script new_adapter).
  - intros method Hget. discriminate Hget.
  - reflexivity.
  - repeat constructor; simpl; intros; reflexivity.
  - repeat constructor; simpl; intros; try reflexivity; discriminate.
  - reflexivity.
  - eexists. reflexivity.
  - reflexivity.
Defined.

(** ** An exception in the caller's block *)

Section BlockError.

Context {B : Type}.

Lemma running_before_yield_dispatch (m : Inbound) :
  dispatch_keeps (@running_before_yield B) m.
Proof.
  intros hist a [Hy Hrun]. split.
  - apply dispatch_adds_not; [exact (fun f => f) | exact Hy].
  - apply (triple_dispatch_keeps running m (running_dispatch m)). exact Hrun.
Qed.

Lemma block_error_outcomes (super : ParentScope B) (os : OS)
    (template : json) (root : string) (sc : Script) (e : Exn) :
  block_result sc = Raise e ->
  outcomes
    (fun events _ =>
       ~ In Yielded events /\ ~ In (RequestSent "shutdown") events
       /\ ~ In ProcessStopped events)
    (start_server super os template root sc)
    (fun _ => @nothing B)
    (fun e' events a => In Yielded events -> e' = e /\ running events a)
    not_yielded.
Proof.
  intros Hblock. unfold_session. rewrite Hblock.
  eapply outcomes_weaken;
    [|outcomes_chain (@running_before_yield B) (@running_before_yield B)
        (@running B)];
    try (apply all_keep; intros m;
         first [ apply running_before_yield_dispatch
               | apply triple_dispatch_keeps, running_dispatch ]);
    unfold running_before_yield, running, not_yielded, nothing; cbv beta;
    intros; split_results; try contradiction; simpl;
    repeat match goal with
    | |- _ /\ _ => split
    end;
    try reflexivity; try assumption;
    try (repeat (apply notin_snoc; [discriminate|]); assumption);
    try (let Hy := fresh in
         intros Hy; exfalso;
         repeat (apply in_snoc_other in Hy; [|discriminate]); contradiction).
Qed.

End BlockError.

(** X15.  An exception of the caller's block leaves the scope as it is, with
    nothing cleaned up.  For every session that yielded and whose block
    raises [e], the session raises that same [e], no shutdown request was
    sent, the connection was not stopped and the child process is still
    running. *)
Theorem block_error_propagates {B : Type}
    (super : ParentScope B) (os : OS) (template : json) (root : string)
    (sc : Script) (e : Exn) (a : Adapter B) :
  block_result sc = Raise e ->
  In Yielded (log (start_server super os template root sc a)) ->
  outcome (start_server super os template root sc a) = Raised e
  /\ process_running (state (start_server super os template root sc a)) = true
  /\ ~ In (RequestSent "shutdown") (log (start_server super os template root sc a))
  /\ ~ In ProcessStopped (log (start_server super os template root sc a)).
Proof.
  intros Hblock Hy.
  pose proof (block_error_outcomes super os template root sc e Hblock [] a) as H.
  rewrite app_nil_l in H.
  assert (H0 : ~ In Yielded [] /\ ~ In (RequestSent "shutdown") []
               /\ ~ In ProcessStopped []) by (simpl; tauto).
  specialize (H H0).
  destruct (outcome (start_server super os template root sc a)) as [[]|e'|].
  - destruct H.
  - destruct (H Hy) as [-> Hrun]. unfold running in Hrun. tauto.
  - contradiction.
Qed.

Lemma block_error_propagates_witness :
  outcome (start_server flag_scope (posix 4242) sample_template "/home/dev/todo"
             failing_block_script new_adapter) = Raised CallerError.
Proof.
  apply (block_error_propagates flag_scope (posix 4242) sample_template
           "/home/dev/todo" failing_block_script CallerError new_adapter eq_refl).
  vm_compute. tauto.
Defined.

(** ** Failures before the yield *)

Lemma bad_template_outcomes {B : Type}
    (super : ParentScope B) (os : OS) (template : json) (root : string)
    (sc : Script) (e : Exn) :
  start_result sc = Ok tt ->
  Params._get_initialize_params os template root = Raise e ->
  outcomes (fun events _ => events = [])
    (start_server super os template root sc)
    (fun _ => @nothing B)
    (fun e' events a =>
       e' = e
       /\ events
          = (registrations
             ++ [Logged "Starting Ruby server process"; ProcessStarted])%list
       /\ process_running a = true)
    nothing.
Proof.
  intros Hstart Hparams. unfold_session. rewrite Hstart, Hparams.
  eapply outcomes_weaken;
    [|outcomes_chain (@nothing B) (@nothing B) (@nothing B)];
    try (apply Forall_forall; intros m _ hist a []);
    unfold nothing; cbv beta; intros; try contradiction.
  subst hist. repeat split.
Qed.

(** X16.  The template is checked after the server process was launched.  In
    a session whose process starts and whose template makes
    [_get_initialize_params] raise [e], the session raises [e] right after
    the start: its events are the four registrations, the log line and the
    start of the process, no request is sent, and the process is left
    running. *)
Theorem bad_template_after_launch {B : Type}
    (super : ParentScope B) (os : OS) (template : json) (root : string)
    (sc : Script) (e : Exn) (a : Adapter B) :
  start_result sc = Ok tt ->
  Params._get_initialize_params os template root = Raise e ->
  outcome (start_server super os template root sc a) = Raised e
  /\ log (start_server super os template root sc a)
     = (registrations ++ [Logged "Starting Ruby server process"; ProcessStarted])%list
  /\ process_running (state (start_server super os template root sc a)) = true.
Proof.
  intros Hstart Hparams.
  pose proof (bad_template_outcomes super os template root sc e Hstart Hparams
                [] a eq_refl) as H.
  rewrite app_nil_l in H.
  destruct (outcome (start_server super os template root sc a)) as [[]|e'|];
    try contradiction.
  destruct H as [-> [Hl Hp]]. auto.
Qed.

Lemma bad_template_after_launch_witness :
  outcome (start_server flag_scope (posix 4242) reused_template "/home/dev/todo"
             good_script new_adapter) = Raised AssertionError
  /\ process_running
       (state (start_server flag_scope (posix 4242) reused_template
                 "/home/dev/todo" good_script new_adapter)) = true.
Proof.
  destruct (bad_template_after_launch flag_scope (posix 4242) reused_template
              "/home/dev/todo" good_script AssertionError new_adapter
              eq_refl eq_refl) as (Ho & _ & Hp).
  split; assumption.
Defined.

Section Refusal.

Context {B : Type}.

Lemma awaiting_response_dispatch (m : Inbound) :
  dispatch_keeps (@awaiting_response B) m.
Proof.
  intros hist a (Hn & Hy & Hp). repeat split.
  - apply dispatch_adds_not; [exact (fun f => f) | exact Hn].
  - apply dispatch_adds_not; [exact (fun f => f) | exact Hy].
  - now rewrite dispatch_keeps_process.
Qed.

Lemma refused_initialize_outcomes (super : ParentScope B) (os : OS)
    (template : json) (root : string) (sc : Script) (params : json) (e : Exn) :
  start_result sc = Ok tt ->
  Params._get_initialize_params os template root = Ok params ->
  initialize_result sc = Raise e ->
  outcomes
    (fun events _ =>
       ~ In (NotificationSent "initialized") events /\ ~ In Yielded events)
    (start_server super os template root sc)
    (fun _ => @nothing B)
    (fun e' events a => e' = e /\ awaiting_response events a)
    nothing.
Proof.
  intros Hstart Hparams Hinit. unfold_session. rewrite Hstart, Hparams, Hinit.
  eapply outcomes_weaken;
    [|outcomes_chain (@awaiting_response B) (@nothing B) (@nothing B)];
    try (apply all_keep; intros m;
         first [ apply awaiting_response_dispatch | apply nothing_dispatch ]);
    unfold awaiting_response, nothing; cbv beta;
    intros; split_results; try contradiction; simpl;
    repeat match goal with
    | |- _ /\ _ => split
    end;
    try reflexivity; try assumption;
    try (repeat (apply notin_snoc; [discriminate|]); assumption).
Qed.

End Refusal.

(** X17.  A refused initialize request ends the session.  When the process
    starts, the parameters are built and the initialize request fails with
    [e], the session raises [e]: no initialized notification is sent, the
    generator does not yield, and the process is left running. *)
Theorem refused_initialize_ends_session {B : Type}
    (super : ParentScope B) (os : OS) (template : json) (root : string)
    (sc : Script) (params : json) (e : Exn) (a : Adapter B) :
  start_result sc = Ok tt ->
  Params._get_initialize_params os template root = Ok params ->
  initialize_result sc = Raise e ->
  outcome (start_server super os template root sc a) = Raised e
  /\ ~ In (NotificationSent "initialized")
         (log (start_server super os template root sc a))
  /\ ~ In Yielded (log (start_server super os template root sc a))
  /\ process_running (state (start_server super os template root sc a)) = true.
Proof.
  intros Hstart Hparams Hinit.
  pose proof (refused_initialize_outcomes super os template root sc params e
                Hstart Hparams Hinit [] a) as H.
  rewrite app_nil_l in H.
  assert (H0 : ~ In (NotificationSent "initialized") [] /\ ~ In Yielded [])
    by (simpl; tauto).
  specialize (H H0).
  destruct (outcome (start_server super os template root sc a)) as [[]|e'|];
    try contradiction.
  destruct H as [-> (Hn & Hy & Hp)]. auto.
Qed.

Lemma refused_initialize_ends_session_witness :
  outcome (start_server flag_scope (posix 4242) sample_template "/home/dev/todo"
             refusing_script new_adapter) = Raised ServerError.
Proof.
  apply (refused_initialize_ends_session flag_scope (posix 4242) sample_template
           "/home/dev/todo" refusing_script _ ServerError new_adapter
           eq_refl eq_refl eq_refl).
Defined.

(** ** A server that reports *)

Section Report.

Context {B : Type}.

Lemma dispatch_listening (m : Inbound) (a : Adapter B) :
  listening a ->
  listening (state (dispatch m a))
  /\ (server_ready a = true -> server_ready (state (dispatch m a)) = true)
  /\ (reports m -> server_ready (state (dispatch m a)) = true).
Proof.
  intros Hl. split; [|split].
  - destruct (dispatch_cases m a) as [_ [->|(? & ? & _ & _ & _ & -> & _)]];
      exact Hl.
  - destruct (dispatch_cases m a) as [_ [->|(? & ? & _ & _ & _ & -> & _)]];
      auto.
  - destruct m as [method message|method]; simpl; [|tauto].
    intros [-> Hm]. unfold dispatch. unfold listening in Hl. rewrite Hl.
    simpl. rewrite Hm. reflexivity.
Qed.

Lemma deliver_returns (ms : list Inbound) (a : Adapter B) :
  outcome (deliver ms a) = Returned tt.
Proof.
  revert a. induction ms as [|m rest IH]; intros a; simpl; [reflexivity|].
  unfold act_bind. rewrite dispatch_returns. simpl. apply IH.
Qed.

Lemma deliver_listening (ms : list Inbound) (a : Adapter B) :
  listening a ->
  listening (state (deliver ms a))
  /\ (server_ready a = true \/ Exists reports ms ->
      server_ready (state (deliver ms a)) = true).
Proof.
  revert a. induction ms as [|m rest IH]; intros a Hl; simpl.
  - split; [exact Hl|]. intros [H|H]; [exact H | inversion H].
  - unfold act_bind. rewrite dispatch_returns. simpl.
    destruct (dispatch_listening m a Hl) as (Hl' & Hkeep & Hset).
    destruct (IH _ Hl') as [Hl'' Hready]. split; [exact Hl''|].
    intros [H|H]; apply Hready; [left; auto|].
    inversion H; subst; [left; auto | right; assumption].
Qed.

Lemma outcomes_deliver_reports (ms : list Inbound) (Q : unit -> Assertion B)
    (R : Exn -> Assertion B) (K : Assertion B) :
  outcomes
    (fun _ a =>
       listening a
       /\ forall hist' a',
            listening a' ->
            (server_ready a = true \/ Exists reports ms -> server_ready a' = true) ->
            Q tt hist' a')
    (deliver ms) Q R K.
Proof.
  intros hist a [Hl HQ]. rewrite deliver_returns.
  destruct (deliver_listening ms a Hl) as [Hl' Hready]. apply HQ; assumption.
Qed.

Lemma outcomes_wait_reports (ms : list Inbound)
    (Q : list Inbound -> Assertion B) (R : Exn -> Assertion B)
    (K : Assertion B) :
  outcomes
    (fun _ a =>
       listening a
       /\ (server_ready a = true \/ Exists reports ms)
       /\ forall pending hist' a', Q pending hist' a')
    (server_ready_wait ms) Q R K.
Proof.
  induction ms as [|m rest IH]; intros hist a (Hl & Hr & HQ); simpl.
  - destruct (server_ready a) eqn:E; simpl; [apply HQ|].
    destruct Hr as [H|H]; [discriminate | inversion H].
  - destruct (server_ready a) eqn:E; simpl; [apply HQ|].
    unfold act_bind. rewrite dispatch_returns. simpl. rewrite app_assoc.
    destruct (dispatch_listening m a Hl) as (Hl' & _ & Hset).
    apply IH. split; [exact Hl' | split; [|exact HQ]].
    destruct Hr as [H|H]; [discriminate|].
    inversion H; subst; [left; auto | right; assumption].
Qed.

Lemma yielded_dispatch (m : Inbound) : dispatch_keeps (@yielded B) m.
Proof. intros hist a H. apply in_or_app. left. exact H. Qed.

Ltac report_chain :=
  lazymatch goal with
  | |- outcomes _ (act_bind _ _) _ _ _ =>
      eapply outcomes_bind;
      [ | intros ?; report_chain ]; [ report_chain | .. ]
  | |- outcomes _ (deliver (_ ++ _)) _ _ _ => apply (outcomes_deliver (@yielded B))
  | |- outcomes _ (deliver _) _ _ _ => apply outcomes_deliver_reports
  | |- outcomes _ (server_ready_wait _) _ _ _ => apply outcomes_wait_reports
  | |- outcomes _ (async_with_super _ _) _ _ _ =>
      apply outcomes_async_with_super; report_chain
  | |- outcomes _ _ _ _ _ => outcomes_step
  end.

Lemma report_outcomes (super : ParentScope B) (os : OS)
    (template : json) (root : string) (sc : Script) (params : json) :
  start_result sc = Ok tt ->
  Params._get_initialize_params os template root = Ok params ->
  initialize_result sc = Ok tt ->
  Exists reports (before_initialize_response sc ++ while_waiting sc) ->
  outcomes (@anything B) (start_server super os template root sc)
    (fun _ => yielded) (fun _ => yielded) nothing.
Proof.
  intros Hstart Hparams Hinit Hrep. unfold_session.
  rewrite Hstart, Hparams, Hinit.
  eapply outcomes_weaken; [|report_chain];
    try (apply all_keep; apply yielded_dispatch);
    unfold yielded, anything; cbv beta; intros; split_results;
    try solve [events_facts].
  split.
  - unfold listening. simpl. rewrite !registry_get_set. reflexivity.
  - intros hist' a' Hl Hready. split; [exact Hl | split].
    + simpl. apply Exists_app in Hrep. destruct Hrep as [H0|H1]; auto.
    + intros pending hist'' a''. apply in_or_app. right. now left.
Qed.

End Report.

(** X19.  A server that reports makes the session ready.  When the process
    starts, the parameters are built, the initialize request is answered and
    the server sends, before the answer or after it, a [window/logMessage]
    notification with "Finished" in its text, the wait ends and the generator
    yields. *)
Theorem reporting_server_yields {B : Type}
    (super : ParentScope B) (os : OS) (template : json) (root : string)
    (sc : Script) (params : json) (a : Adapter B) :
  start_result sc = Ok tt ->
  Params._get_initialize_params os template root = Ok params ->
  initialize_result sc = Ok tt ->
  Exists reports (before_initialize_response sc ++ while_waiting sc) ->
  In Yielded (log (start_server super os template root sc a))
  /\ outcome (start_server super os template root sc a) <> Blocked.
Proof.
  intros Hstart Hparams Hinit Hrep.
  pose proof (report_outcomes super os template root sc params
                Hstart Hparams Hinit Hrep [] a I) as H.
  rewrite app_nil_l in H.
  destruct (outcome (start_server super os template root sc a));
    [split; [exact H | discriminate] | split; [exact H | discriminate]
    | destruct H].
Qed.

Lemma reporting_server_yields_witness :
  In Yielded
    (log (start_server flag_scope (posix 4242) sample_template "/home/dev/todo"
            early_script new_adapter)).
Proof.
  refine (proj1 (reporting_server_yields flag_scope (posix 4242) sample_template
                   "/home/dev/todo" early_script _ new_adapter
                   eq_refl eq_refl eq_refl _)).
  left. split; reflexivity.
Defined.

(** ** The marker test *)

Lemma prefix_spec (a b : string) :
  String.prefix a b = true <-> exists post, b = a ++ post.
Proof.
  revert b. induction a as [|c a IH]; intros b; simpl.
  - split; [intros _; exists b; reflexivity | intros _; destruct b; reflexivity].
  - destruct b as [|c' b].
    + split; [discriminate | intros [post H]; discriminate H].
    + simpl. destruct (ascii_dec c c') as [->|Hne].
      * rewrite IH. split; intros [post H]; exists post;
          [now rewrite H | now inversion H].
      * split; [discriminate | intros [post H]; inversion H; congruence].
Qed.

Lemma str_in_spec (needle hay : string) :
  str_in needle hay = true <-> exists pre post, hay = pre ++ needle ++ post.
Proof.
  induction hay as [|c rest IH].
  - change (str_in needle "")
      with (if String.prefix needle "" then true else false).
    destruct (String.prefix needle "") eqn:Hp.
    + split; [|reflexivity]. intros _.
      apply prefix_spec in Hp. destruct Hp as [post Hpost].
      exists "", post. exact Hpost.
    + split; [discriminate|]. intros (pre & post & H).
      destruct pre; [|discriminate H]. simpl in H.
      assert (Hc : String.prefix needle "" = true)
        by (apply prefix_spec; exists post; exact H).
      congruence.
  - change (str_in needle (String c rest))
      with (if String.prefix needle (String c rest) then true
            else str_in needle rest).
    destruct (String.prefix needle (String c rest)) eqn:Hp.
    + split; [|reflexivity]. intros _.
      apply prefix_spec in Hp. destruct Hp as [post Hpost].
      exists "", post. exact Hpost.
    + rewrite IH. split.
      * intros (pre & post & H). exists (String c pre), post. simpl. now rewrite H.
      * intros (pre & post & H). destruct pre as [|c' pre]; simpl in H.
        -- assert (Hc : String.prefix needle (String c rest) = true)
             by (apply prefix_spec; exists post; exact H).
           congruence.
        -- inversion H. exists pre, post. reflexivity.
Qed.

(** X20.  When the handler sets the readiness event.  After
    [window_log_message] ran on a message, the event is set exactly when it
    was set before or the text of the message has "Finished" somewhere in
    it, with this spelling. *)
Theorem window_log_message_sets_on_substring {B : Type}
    (method message : string) (a : Adapter B) :
  server_ready (state (handle window_log_message method message a)) = true
  <-> server_ready a = true
      \/ exists pre post, message = pre ++ "Finished" ++ post.
Proof.
  rewrite <- str_in_spec. simpl.
  destruct (str_in "Finished" message); simpl.
  - split; auto.
  - split; [auto | intros [H|H]; [exact H | discriminate]].
Qed.
